(** * mcp-mysql-server: the tool dispatcher of [src/index.ts]

    A shallow embedding of the MCP server that exposes a MySQL database
    through the four tools [query], [insert], [update] and [delete], and the
    properties of its configuration loader, request dispatcher and execution
    gateway.

    Conventions of the embedding.
    - A JavaScript string is a [string]: each character stands for the UTF-16
      code unit of the same number, so the model covers the strings whose
      code units are below 256 (ASCII and Latin-1).  [toLowerCase] and [trim]
      are given for exactly that range, which they do not leave.
    - [process.env] is a finite map from names to strings.
    - The driver ([mysql2/promise]) is an oracle [Driver]; what the server
      does to it is recorded in a trace of [event]s.
    - An [async] function is a computation [M A] over the trace that either
      returns or throws. *)

From Stdlib Require Import String Ascii ZArith List Bool Lia.
From Stdlib Require Import DecimalString DecimalPos DecimalZ.
From stdpp Require Import base gmap strings.
Import ListNotations.

Local Open Scope string_scope.
Local Open Scope bool_scope.

#[local] Arguments String.append !s1 s2 : simpl nomatch.

(** ** JavaScript strings *)

(** The characters that cannot be written inside a literal here. *)
Definition dquote : string := String "034" EmptyString.
Definition backslash : string := String "092" EmptyString.
Definition newline : string := String "010" EmptyString.

Definition code (c : ascii) : nat := nat_of_ascii c.

Definition between (lo hi n : nat) : bool := (lo <=? n)%nat && (n <=? hi)%nat.

(** WhiteSpace and LineTerminator code units below 256: TAB, LF, VT, FF, CR,
    SP and NBSP. *)
Definition isWhiteSpace (c : ascii) : bool :=
  between 9 13 (code c) || (code c =? 32)%nat || (code c =? 160)%nat.

Fixpoint trimStart (s : string) : string :=
  match s with
  | String c r => if isWhiteSpace c then trimStart r else s
  | EmptyString => EmptyString
  end.

Fixpoint trimEnd (s : string) : string :=
  match s with
  | String c r =>
      match trimEnd r with
      | EmptyString => if isWhiteSpace c then EmptyString else String c EmptyString
      | r' => String c r'
      end
  | EmptyString => EmptyString
  end.

(** [String.prototype.trim] *)
Definition trim (s : string) : string := trimEnd (trimStart s).

(** Upper-case letters below 256: A-Z, and U+00C0..U+00DE but U+00D7. *)
Definition isUpper (c : ascii) : bool :=
  between 65 90 (code c)
  || (between 192 222 (code c) && negb (code c =? 215)%nat).

Definition lower_unit (c : ascii) : ascii :=
  if isUpper c then ascii_of_nat (code c + 32) else c.

(** [String.prototype.toLowerCase] *)
Fixpoint toLowerCase (s : string) : string :=
  match s with
  | String c r => String (lower_unit c) (toLowerCase r)
  | EmptyString => EmptyString
  end.

(** [String.prototype.toUpperCase].  The server applies it to tool names
    only; it is given for a-z and for the Latin-1 letters whose upper case is
    below 256 (U+00DF becomes SS), and leaves U+00B5 and U+00FF, whose upper
    case is not, as they are. *)
Definition upper_unit (c : ascii) : string :=
  if between 97 122 (code c)
     || (between 224 254 (code c) && negb (code c =? 247)%nat)
  then String (ascii_of_nat (code c - 32)) EmptyString
  else if (code c =? 223)%nat then "SS"
  else String c EmptyString.

Fixpoint toUpperCase (s : string) : string :=
  match s with
  | String c r => upper_unit c ++ toUpperCase r
  | EmptyString => EmptyString
  end.

(** [String.prototype.startsWith] *)
Definition startsWith (s searchString : string) : bool :=
  String.prefix searchString s.

(** [Array.prototype.includes] on an array of strings *)
Definition includes (l : list string) (x : string) : bool :=
  existsb (String.eqb x) l.

(** [text] has [sub] as a substring. *)
Definition Contains (sub text : string) : Prop :=
  exists before after, text = before ++ sub ++ after.

(** ** Numbers and BigInts *)

(** The Number values: NaN, the infinities, [Int z] for the Number of the
    integer [z] (exact up to 2^53; -0 is not told from 0), and [Frac repr]
    for a finite Number that is not an integer, carried by the text
    [Number::toString] gives it, since floating point is not computed
    here. *)
Inductive Number : Type :=
| NaN
| Infinity (negative : bool)
| Int (z : Z)
| Frac (repr : string).

(** The decimal numeral of an integer: the digits, after a minus sign when
    negative. *)
Definition decimal (z : Z) : string := NilZero.string_of_int (Z.to_int z).

(** [Number::toString] with radix 10.  For [Int z] it is the decimal numeral
    of [z], which is what JavaScript prints for the safe integers (up to
    2^53-1 in absolute value); beyond them JavaScript prints the digits of
    the rounded double, and an exponent from 10^21, which is not modelled:
    a statement that gives the text of a Number bounds it to that range. *)
Definition Number_toString (n : Number) : string :=
  match n with
  | NaN => "NaN"
  | Infinity false => "Infinity"
  | Infinity true => "-Infinity"
  | Int z => decimal z
  | Frac repr => repr
  end.

(** [BigInt.prototype.toString] *)
Definition BigInt_toString (z : Z) : string := decimal z.

Definition digit_value (c : ascii) : option Z :=
  if between 48 57 (code c) then Some (Z.of_nat (code c - 48)) else None.

(** The value of the longest prefix of decimal digits, [None] when it is
    empty. *)
Fixpoint parse_digits (acc : option Z) (s : string) : option Z :=
  match s with
  | String c r =>
      match digit_value c with
      | Some d => parse_digits (Some (10 * default 0%Z acc + d)%Z) r
      | None => acc
      end
  | EmptyString => acc
  end.

(** [parseInt(s, 10)]: leading white space is skipped, one sign is read,
    then the longest run of digits; what follows is ignored.  [Int z] is
    the Number of the integer read, which is that integer up to 2^53 and the
    nearest double beyond. *)
Definition parseInt10 (s : string) : Number :=
  let s := trimStart s in
  let (sign, digits) :=
    match s with
    | String c r =>
        if Ascii.eqb c "-" then ((-1)%Z, r)
        else if Ascii.eqb c "+" then (1%Z, r)
        else (1%Z, s)
    | EmptyString => (1%Z, s)
    end in
  match parse_digits None digits with
  | Some n => Int (sign * n)
  | None => NaN
  end.

(** ** Configuration loader (index.ts, lines 12-31) *)

(** [process.env]: a variable that is not set reads as [undefined]. *)
Definition environment : Type := gmap string string.

(** ToBoolean of [string | undefined] *)
Definition truthy (v : option string) : bool :=
  match v with
  | Some s => negb (s =? EmptyString)
  | None => false
  end.

Record ConnectionConfig : Type := {
  host : option string;
  user : option string;
  password : option string;
  database : option string;
  port : Number
}.

(** The constants of the module that the handlers read. *)
Record Config : Type := {
  connectionConfig : ConnectionConfig;
  MYSQL_ALLOW_WRITE_OPS : bool
}.

Definition MYSQL_PORT (env : environment) : Number :=
  if truthy (env !! "MYSQL_PORT")
  then parseInt10 (default EmptyString (env !! "MYSQL_PORT"))
  else Int 3306.

(** [v === lit] for [v : string | undefined] and a string literal *)
Definition strict_equal (v : option string) (lit : string) : bool :=
  match v with
  | Some s => s =? lit
  | None => false
  end.

Definition allow_write_ops (env : environment) : bool :=
  strict_equal (env !! "MYSQL_ALLOW_WRITE_OPS") "true".

Inductive startup : Type :=
| Exit (status : Z)
| Serving (cfg : Config).

(** The top level of the module: [process.exit(1)] or the constants. *)
Definition load (env : environment) : startup :=
  let MYSQL_HOST := env !! "MYSQL_HOST" in
  let MYSQL_USER := env !! "MYSQL_USER" in
  let MYSQL_PASSWORD := env !! "MYSQL_PASSWORD" in
  let MYSQL_DATABASE := env !! "MYSQL_DATABASE" in
  if negb (truthy MYSQL_HOST) || negb (truthy MYSQL_USER)
     || negb (truthy MYSQL_PASSWORD) || negb (truthy MYSQL_DATABASE)
  then Exit 1
  else Serving {|
    connectionConfig := {|
      host := MYSQL_HOST;
      user := MYSQL_USER;
      password := MYSQL_PASSWORD;
      database := MYSQL_DATABASE;
      port := MYSQL_PORT env |};
    MYSQL_ALLOW_WRITE_OPS := allow_write_ops env |}.


(** ** JavaScript values *)

#[local] Set Warnings "-register-all".

(** The values that cross the server: request arguments (parsed JSON) and
    what the driver resolves with.  An object is the list of its own
    enumerable properties in enumeration order.  A [Date] or a [Buffer] of a
    row stands as what its [toJSON] returns, which [JSON.stringify] takes in
    its place before anything else. *)
Inductive value : Type :=
| VUndefined
| VNull
| VBool (b : bool)
| VNumber (n : Number)
| VString (s : string)
| VBigInt (z : Z)
| VArray (elements : list value)
| VObject (properties : list (string * value)).

Definition typeof (v : value) : string :=
  match v with
  | VUndefined => "undefined"
  | VNull | VArray _ | VObject _ => "object"
  | VBool _ => "boolean"
  | VNumber _ => "number"
  | VString _ => "string"
  | VBigInt _ => "bigint"
  end.

Fixpoint lookup_property (k : string) (ps : list (string * value)) : option value :=
  match ps with
  | (k', v) :: ps' => if k' =? k then Some v else lookup_property k ps'
  | [] => None
  end.

(** [k in o] for an object or an array [o] and a name [k] that is neither an
    index nor [length]. *)
Definition has_property (k : string) (o : value) : bool :=
  match o with
  | VObject ps => bool_decide (is_Some (lookup_property k ps))
  | _ => false
  end.

(** [o.k] under the same conditions. *)
Definition get (o : value) (k : string) : value :=
  match o with
  | VObject ps => default VUndefined (lookup_property k ps)
  | _ => VUndefined
  end.

(** The string of a value that a type guard has narrowed to [string]. *)
Definition as_string (v : value) : string :=
  match v with
  | VString s => s
  | _ => EmptyString
  end.

(** [x !== 0] *)
Definition strict_not_zero (v : value) : bool :=
  match v with
  | VNumber (Int 0) => false
  | _ => true
  end.

Fixpoint join (sep : string) (l : list string) : string :=
  match l with
  | [] => EmptyString
  | [x] => x
  | x :: l' => x ++ sep ++ join sep l'
  end.

(** ToString, as a template literal applies it. *)
Fixpoint ToString (v : value) : string :=
  match v with
  | VUndefined => "undefined"
  | VNull => "null"
  | VBool true => "true"
  | VBool false => "false"
  | VNumber n => Number_toString n
  | VString s => s
  | VBigInt z => BigInt_toString z
  | VArray l =>
      join "," (map (fun x => match x with
                              | VUndefined | VNull => EmptyString
                              | _ => ToString x
                              end) l)
  | VObject _ => "[object Object]"
  end.

(** ** JSON.stringify *)

(** What a [throw] carries: an [Error] of the driver, a [TypeError] of the
    language, or the protocol error of the MCP SDK. *)
Inductive ErrorCode : Type := InvalidParams | MethodNotFound.

Definition ErrorCode_value (c : ErrorCode) : Z :=
  match c with
  | InvalidParams => -32602
  | MethodNotFound => -32601
  end.

Inductive exn : Type :=
| Error (message : string)
| TypeError (message : string)
| McpError (code : ErrorCode) (message : string).

(** [error.message] *)
Definition message_of (error : exn) : string :=
  match error with
  | Error message | TypeError message => message
  | McpError c message => "MCP error " ++ decimal (ErrorCode_value c) ++ ": " ++ message
  end.

Inductive completion (A : Type) : Type :=
| Normal (a : A)
| Throw (error : exn).
Arguments Normal {A} a.
Arguments Throw {A} error.

Definition hex_digit (n : nat) : ascii :=
  if (n <? 10)%nat then ascii_of_nat (48 + n) else ascii_of_nat (87 + n).

(** QuoteJSONString on one code unit: the short escapes, [\u00xx] for the
    other control characters, the character itself otherwise. *)
Definition quote_unit (c : ascii) : string :=
  let n := code c in
  if (n =? 8)%nat then backslash ++ "b"
  else if (n =? 9)%nat then backslash ++ "t"
  else if (n =? 10)%nat then backslash ++ "n"
  else if (n =? 12)%nat then backslash ++ "f"
  else if (n =? 13)%nat then backslash ++ "r"
  else if (n =? 34)%nat then backslash ++ dquote
  else if (n =? 92)%nat then backslash ++ backslash
  else if (n <? 32)%nat
       then backslash ++ "u00"
            ++ String (hex_digit (n / 16)) (String (hex_digit (n mod 16)) EmptyString)
  else String c EmptyString.

Fixpoint quote_units (s : string) : string :=
  match s with
  | String c r => quote_unit c ++ quote_units r
  | EmptyString => EmptyString
  end.

Definition QuoteJSONString (s : string) : string :=
  dquote ++ quote_units s ++ dquote.

(** The replacer that executeQuery passes (index.ts, lines 199-200). *)
Definition replacer (key : string) (v : value) : value :=
  if typeof v =? "bigint" then VString (ToString v) else v.

Definition gap : string := "  ".

(** SerializeJSONProperty after the replacer has been called: the cases on
    the value, SerializeJSONArray and SerializeJSONObject, for the recursive
    call [SerializeJSONProperty] on the elements and properties. *)
Section SerializeJSON.

Variable SerializeJSONProperty :
  string -> string -> value -> completion (option string).
Variable indent : string.

Fixpoint serialize_elements (index : nat) (l : list value)
  : completion (list string) :=
  match l with
  | [] => Normal []
  | x :: l' =>
      match SerializeJSONProperty indent (decimal (Z.of_nat index)) x with
      | Throw e => Throw e
      | Normal strP =>
          match serialize_elements (S index) l' with
          | Throw e => Throw e
          | Normal partial => Normal (default "null" strP :: partial)
          end
      end
  end.

Fixpoint serialize_members (ps : list (string * value))
  : completion (list string) :=
  match ps with
  | [] => Normal []
  | (P, x) :: ps' =>
      match SerializeJSONProperty indent P x with
      | Throw e => Throw e
      | Normal strP =>
          match serialize_members ps' with
          | Throw e => Throw e
          | Normal partial =>
              match strP with
              | Some str =>
                  Normal ((QuoteJSONString P ++ ": " ++ str) :: partial)
              | None => Normal partial
              end
          end
      end
  end.

End SerializeJSON.

(** The text of an array ([open] and [close] the brackets) or of an object
    (the braces) from the texts of its parts. *)
Definition wrap (open close stepback : string) (partial : list string) : string :=
  match partial with
  | [] => open ++ close
  | _ =>
      let indent := stepback ++ gap in
      open ++ newline ++ indent
      ++ join ("," ++ newline ++ indent) partial
      ++ newline ++ stepback ++ close
  end.

Definition serialize_value
  (SerializeJSONProperty : string -> string -> value -> completion (option string))
  (indent : string) (v : value) : completion (option string) :=
  match v with
  | VUndefined => Normal None
  | VNull => Normal (Some "null")
  | VBool true => Normal (Some "true")
  | VBool false => Normal (Some "false")
  | VString s => Normal (Some (QuoteJSONString s))
  | VNumber n =>
      match n with
      | Int _ | Frac _ => Normal (Some (Number_toString n))
      | NaN | Infinity _ => Normal (Some "null")
      end
  | VBigInt _ => Throw (TypeError "Do not know how to serialize a BigInt")
  | VArray l =>
      match serialize_elements SerializeJSONProperty (indent ++ gap) 0 l with
      | Throw e => Throw e
      | Normal partial => Normal (Some (wrap "[" "]" indent partial))
      end
  | VObject ps =>
      match serialize_members SerializeJSONProperty (indent ++ gap) ps with
      | Throw e => Throw e
      | Normal partial => Normal (Some (wrap "{" "}" indent partial))
      end
  end.

(** SerializeJSONProperty with the replacer of executeQuery: the replacer is
    called on the value, and what it returns is serialized.  The replacer
    returns every value but a BigInt as it got it, and the second case is
    written with the value itself, which keeps the recursion structural;
    [SerializeJSONProperty_replacer] below gives the equation with the
    replacer called in every case. *)
Fixpoint SerializeJSONProperty (indent key : string) (v : value) {struct v}
  : completion (option string) :=
  match v with
  | VBigInt z => serialize_value SerializeJSONProperty indent (replacer key (VBigInt z))
  | _ => serialize_value SerializeJSONProperty indent v
  end.

(** [JSON.stringify(value, replacer, 2)] *)
Definition JSON_stringify (v : value) : completion (option string) :=
  SerializeJSONProperty EmptyString EmptyString v.

(** ** The driver and the effects of a request *)

Inductive Connection : Type := connection_to (config : ConnectionConfig).

(** What [connection.execute] resolves with (its first component): an array
    of rows or a result header, an object. *)
Inductive QueryResult : Type :=
| RowData (rows : list value)
| ResultSetHeader (properties : list (string * value)).

Definition value_of (r : QueryResult) : value :=
  match r with
  | RowData rows => VArray rows
  | ResultSetHeader properties => VObject properties
  end.

(** The database as the server meets it: whether a connection is
    established, and what a statement gives; a failure is the message of the
    [Error] that the promise rejects with.  [connection.end()] of
    [mysql2/promise] resolves whatever happens. *)
Record Driver : Type := {
  connect : ConnectionConfig -> option string;
  run : string -> string + QueryResult
}.

Inductive event : Type :=
| CreateConnection (config : ConnectionConfig)
| Execute (sql : string)
| End.

(** The state of a call: the local variable [connection] of the gateway
    function that runs, and the calls made to the driver so far. *)
Record state : Type := {
  connection : option Connection;
  trace : list event
}.

Definition M (A : Type) : Type := state -> completion A * state.

Definition ret {A : Type} (a : A) : M A := fun st => (Normal a, st).

Definition bind {A B : Type} (m : M A) (k : A -> M B) : M B :=
  fun st =>
    match m st with
    | (Normal a, st') => k a st'
    | (Throw e, st') => (Throw e, st')
    end.

Definition throw {A : Type} (e : exn) : M A := fun st => (Throw e, st).

Definition try_catch {A : Type} (body : M A) (handler : exn -> M A) : M A :=
  fun st =>
    match body st with
    | (Normal a, st') => (Normal a, st')
    | (Throw e, st') => handler e st'
    end.

Definition lift {A : Type} (c : completion A) : M A := fun st => (c, st).

Declare Scope js_scope.
Delimit Scope js_scope with js.
Notation "x <- m ;; k" := (bind m (fun x => k))
  (at level 100, m at next level, k at level 200, right associativity) : js_scope.
Notation "m ;; k" := (bind m (fun _ => k))
  (at level 100, k at level 200, right associativity) : js_scope.

Definition assign_connection (c : option Connection) : M unit :=
  fun st => (Normal tt, {| connection := c; trace := trace st |}).

Definition read_connection : M (option Connection) :=
  fun st => (Normal (connection st), st).

Definition emit (e : event) : M unit :=
  fun st => (Normal tt, {| connection := connection st; trace := (trace st ++ [e])%list |}).

Definition initial : state := {| connection := None; trace := [] |}.

(** The response of a tool call: the text of its single content item, and
    [isError] ([false] when the property is absent). *)
Record CallToolResult : Type := {
  text : option string;
  isError : bool
}.

Definition text_content (s : string) : CallToolResult :=
  {| text := Some s; isError := false |}.

Definition error_content (s : string) : CallToolResult :=
  {| text := Some s; isError := true |}.

(** ** The server (index.ts, lines 33-240) *)

(** [v === null] *)
Definition is_null (v : value) : bool :=
  match v with
  | VNull => true
  | _ => false
  end.

(** Type guard for query arguments *)
Definition isValidQueryArgs (args : value) : bool :=
  (typeof args =? "object")
  && negb (is_null args)
  && (typeof (get args "sql") =? "string").

(** Type guard for write operation arguments *)
Definition isValidWriteArgs (args : value) : bool :=
  (typeof args =? "object")
  && negb (is_null args)
  && (typeof (get args "sql") =? "string").

Definition invalid_arguments (toolName : string) : string :=
  "Invalid arguments for " ++ toolName ++ " tool. Expected { "
  ++ dquote ++ "sql" ++ dquote ++ ": " ++ dquote ++ "..." ++ dquote ++ " }".

Definition only_reads_allowed : string :=
  "Error: Only SELECT, SHOW, or DESCRIBE queries are allowed for the "
  ++ dquote ++ "query" ++ dquote ++ " tool.".

Definition writes_disabled (toolName : string) : string :=
  "Error: Write operations are disabled. Set MYSQL_ALLOW_WRITE_OPS=true in MCP settings to enable "
  ++ toolName ++ ".".

Definition not_a_statement_of (toolName : string) : string :=
  "Error: SQL statement does not appear to be a valid "
  ++ toUpperCase toolName ++ " statement.".

Section Server.

(** The constants of the module and the database behind the driver. *)
Variable cfg : Config.
Variable db : Driver.

Local Open Scope js_scope.

(** [mysql.createConnection(config)] *)
Definition createConnection (config : ConnectionConfig) : M Connection :=
  emit (CreateConnection config) ;;
  match connect db config with
  | Some message => throw (Error message)
  | None => ret (connection_to config)
  end.

(** [connection.execute(sql)], the first component of what it resolves
    with *)
Definition execute (c : Connection) (sql : string) : M QueryResult :=
  emit (Execute sql) ;;
  match run db sql with
  | inl message => throw (Error message)
  | inr result => ret result
  end.

(** [connection.end()] *)
Definition end_ (c : Connection) : M unit := emit End.

(** The catch clause of both gateway functions. *)
Definition release_and_report (stage : string) (error : exn) : M CallToolResult :=
  c <- read_connection ;;
  match c with
  | Some c => end_ c
  | None => ret tt
  end ;;
  ret (error_content (stage ++ message_of error)).

(** Helper function for executing read queries *)
Definition executeQuery (sqlQuery : string) : M CallToolResult :=
  assign_connection None ;;
  try_catch
    (c <- createConnection (connectionConfig cfg) ;;
     assign_connection (Some c) ;;
     rows <- execute c sqlQuery ;;
     end_ c ;;
     json <- lift (JSON_stringify (value_of rows)) ;;
     ret {| text := json; isError := false |})
    (fun error => release_and_report "MySQL Query Error: " error).

(** Helper function for executing write statements (INSERT, UPDATE,
    DELETE) *)
Definition executeWrite (sqlStatement operation : string) : M CallToolResult :=
  assign_connection None ;;
  try_catch
    (c <- createConnection (connectionConfig cfg) ;;
     assign_connection (Some c) ;;
     r <- execute c sqlStatement ;;
     end_ c ;;
     let result := value_of r in
     let message := toUpperCase operation ++ " successful." in
     let message :=
       if has_property "affectedRows" result
       then message ++ " Affected rows: " ++ ToString (get result "affectedRows") ++ "."
       else message in
     let message :=
       if has_property "insertId" result && strict_not_zero (get result "insertId")
       then message ++ " Insert ID: " ++ ToString (get result "insertId") ++ "."
       else message in
     ret (text_content message))
    (fun error =>
       release_and_report ("MySQL " ++ toUpperCase operation ++ " Error: ") error).

(** The handler of CallToolRequestSchema *)
Definition CallTool (toolName : string) (args : value) : M CallToolResult :=
  if toolName =? "query" then
    if negb (isValidQueryArgs args) then
      throw (McpError InvalidParams (invalid_arguments "query"))
    else
      let sqlQuery := as_string (get args "sql") in
      let lowerCaseQuery := trim (toLowerCase sqlQuery) in
      if negb (startsWith lowerCaseQuery "select")
         && negb (startsWith lowerCaseQuery "show")
         && negb (startsWith lowerCaseQuery "describe")
      then ret (error_content only_reads_allowed)
      else executeQuery sqlQuery
  else if includes ["insert"; "update"; "delete"] toolName then
    if negb (MYSQL_ALLOW_WRITE_OPS cfg) then
      ret (error_content (writes_disabled toolName))
    else if negb (isValidWriteArgs args) then
      throw (McpError InvalidParams (invalid_arguments toolName))
    else
      let sqlStatement := as_string (get args "sql") in
      let lowerCaseStatement := trim (toLowerCase sqlStatement) in
      if negb (startsWith lowerCaseStatement toolName)
      then ret (error_content (not_a_statement_of toolName))
      else executeWrite sqlStatement toolName
  else
    throw (McpError MethodNotFound ("Unknown tool: " ++ toolName)).

End Server.

(** A computation run from a fresh state: how it completes, and the calls
    that reached the driver. *)
Definition observe {A : Type} (m : M A) : completion A * list event :=
  let (c, st) := m initial in (c, trace st).

(** One request. *)
Definition handle (cfg : Config) (db : Driver) (toolName : string) (args : value)
  : completion CallToolResult * list event :=
  observe (CallTool cfg db toolName args).

(** ** Vocabulary of the specification *)

Definition write_tools : list string := ["insert"; "update"; "delete"].

(** The statement as the classifier looks at it. *)
Definition normalized (sql : string) : string := trim (toLowerCase sql).

(** The arguments [{ sql: ... }]. *)
Definition sql_arguments (sql : string) : value := VObject [("sql", VString sql)].

(** The arguments are an object that contains a string field [sql]. *)
Definition has_sql_string (args : value) : Prop :=
  exists ps sql, args = VObject ps /\ lookup_property "sql" ps = Some (VString sql).

(** The characters of an SQL word: letters, digits, underscore and dollar. *)
Definition isWordChar (c : ascii) : bool :=
  between 97 122 (code c) || between 65 90 (code c) || between 48 57 (code c)
  || (code c =? 95)%nat || (code c =? 36)%nat.

(** The leading token of a statement, in the words of the specification: its
    longest prefix of word characters. *)
Fixpoint leading_token (s : string) : string :=
  match s with
  | String c r => if isWordChar c then String c (leading_token r) else EmptyString
  | EmptyString => EmptyString
  end.

(** The classifier's verdict on a request whose arguments hold [sql]: the
    statement goes to the gateway. *)
Definition accepted (cfg : Config) (toolName sql : string) : bool :=
  if toolName =? "query" then
    startsWith (normalized sql) "select" || startsWith (normalized sql) "show"
    || startsWith (normalized sql) "describe"
  else
    includes write_tools toolName && MYSQL_ALLOW_WRITE_OPS cfg
    && startsWith (normalized sql) toolName.

(** A required variable is missing: not set, or set to the empty string. *)
Definition missing (env : environment) (name : string) : Prop :=
  env !! name = None \/ env !! name = Some EmptyString.

Definition isDigit (c : ascii) : bool := between 48 57 (code c).

Fixpoint all_digits (s : string) : bool :=
  match s with
  | String c r => isDigit c && all_digits r
  | EmptyString => true
  end.

(** A numeric value, as one writes a port: digits and nothing else. *)
Definition numeric (s : string) : bool :=
  negb (s =? EmptyString) && all_digits s.

(** The value begins, after white space and one sign, with a digit. *)
Definition first_is_digit (s : string) : bool :=
  match s with
  | String c _ => isDigit c
  | EmptyString => false
  end.

Definition begins_with_numeral (s : string) : bool :=
  match trimStart s with
  | String c r =>
      if Ascii.eqb c "-" || Ascii.eqb c "+" then first_is_digit r
      else isDigit c
  | EmptyString => false
  end.

(** The calls of a gateway function that got its connection: the attempt,
    the statement, the release. *)
Definition whole_call (cfg : Config) (sql : string) : list event :=
  [CreateConnection (connectionConfig cfg); Execute sql; End].



(** How many times a trace releases a connection. *)
Definition releases (t : list event) : nat :=
  List.length (List.filter (fun e => match e with End => true | _ => false end) t).

(** The confirmation of a write, in the words of the specification: the
    operation, then the clause of the affected rows when the count is
    present, then the clause of the insert id when it is present and not
    zero. *)
Definition confirmation (operation : string) (result : value) : string :=
  toUpperCase operation ++ " successful."
  ++ (if has_property "affectedRows" result
      then " Affected rows: " ++ ToString (get result "affectedRows") ++ "."
      else EmptyString)
  ++ (if has_property "insertId" result && strict_not_zero (get result "insertId")
      then " Insert ID: " ++ ToString (get result "insertId") ++ "."
      else EmptyString).

(** The integers that a Number holds exactly and prints as digits
    (Number.isSafeInteger). *)
Definition safe_integer (z : Z) : Prop :=
  (- (2 ^ 53 - 1) <= z <= 2 ^ 53 - 1)%Z.

(** What a result header holds under a name: the Number of a safe integer,
    or nothing at all. *)
Definition number_field (ps : list (string * value)) (name : string) (n : option Z)
  : Prop :=
  match n with
  | Some z => In (name, VNumber (Int z)) ps /\ safe_integer z
  | None => ~ In name (map fst ps)
  end.

(** The operation as the messages of a write name it. *)
Definition OPERATION (operation : string) : string :=
  if operation =? "insert" then "INSERT"
  else if operation =? "update" then "UPDATE"
  else if operation =? "delete" then "DELETE"
  else operation.

(** The clause of the affected rows: there when the count is. *)
Definition affected_clause (count : option Z) : string :=
  match count with
  | Some n => " Affected rows: " ++ decimal n ++ "."
  | None => EmptyString
  end.

(** The clause of the insert id: there when the id is, and is not zero. *)
Definition insert_clause (id : option Z) : string :=
  match id with
  | Some i => if (i =? 0)%Z then EmptyString else " Insert ID: " ++ decimal i ++ "."
  | None => EmptyString
  end.

(** A BigInt with value [z] sits somewhere in a value. *)
Inductive holds_bigint (z : Z) : value -> Prop :=
| holds_here : holds_bigint z (VBigInt z)
| holds_element l x : In x l -> holds_bigint z x -> holds_bigint z (VArray l)
| holds_property ps k x : In (k, x) ps -> holds_bigint z x -> holds_bigint z (VObject ps).

(** The integer that a decimal numeral denotes. *)
Definition denoted (s : string) : option Z :=
  option_map Z.of_int (NilZero.int_of_string s).

(** What serialization does with a value, whatever the indentation and the
    key: it does not throw, it gives a text unless the value is [undefined],
    and the text holds, between quotes, the numeral of every BigInt of the
    value. *)
Definition serializes (v : value) : Prop :=
  forall indent key : string,
    exists o,
      SerializeJSONProperty indent key v = Normal o
      /\ (v <> VUndefined ->
          exists s, o = Some s
                    /\ forall z, holds_bigint z v ->
                                 Contains (QuoteJSONString (decimal z)) s).

(** ** Fixtures *)

Definition a_config (allow_write : bool) (p : Number) : Config := {|
  connectionConfig := {|
    host := Some "localhost"; user := Some "app"; password := Some "secret";
    database := Some "shop"; port := p |};
  MYSQL_ALLOW_WRITE_OPS := allow_write |}.

(** A database that answers every statement with [r]. *)
Definition answering (r : QueryResult) : Driver :=
  {| connect := fun _ => None; run := fun _ => inr r |}.

(** A database that rejects every statement with [message]. *)
Definition rejecting (message : string) : Driver :=
  {| connect := fun _ => None; run := fun _ => inl message |}.

(** A database that cannot be reached. *)
Definition unreachable (message : string) : Driver :=
  {| connect := fun _ => Some message; run := fun _ => inl message |}.

Definition an_environment (extra : list (string * string)) : environment :=
  list_to_map (extra ++ [("MYSQL_HOST", "localhost"); ("MYSQL_USER", "app");
                         ("MYSQL_PASSWORD", "secret"); ("MYSQL_DATABASE", "shop")])%list.

(** ** The tool catalog (index.ts, lines 72-122) *)

(** The handler of ListToolsRequestSchema returns one object literal, which
    stands here as the value it is. *)
Definition tools : list value := [
  VObject [
    ("name", VString "query");
    ("description",
     VString "Execute a read-only SQL query against the configured MySQL database.");
    ("inputSchema", VObject [
      ("type", VString "object");
      ("properties", VObject [
        ("sql", VObject [
          ("type", VString "string");
          ("description", VString "The SQL query to execute.")])]);
      ("required", VArray [VString "sql"])])];
  VObject [
    ("name", VString "insert");
    ("description",
     VString "Execute an INSERT SQL statement. Requires MYSQL_ALLOW_WRITE_OPS=true.");
    ("inputSchema", VObject [
      ("type", VString "object");
      ("properties", VObject [
        ("sql", VObject [
          ("type", VString "string");
          ("description", VString "The INSERT SQL statement.")])]);
      ("required", VArray [VString "sql"])])];
  VObject [
    ("name", VString "update");
    ("description",
     VString "Execute an UPDATE SQL statement. Requires MYSQL_ALLOW_WRITE_OPS=true.");
    ("inputSchema", VObject [
      ("type", VString "object");
      ("properties", VObject [
        ("sql", VObject [
          ("type", VString "string");
          ("description", VString "The UPDATE SQL statement.")])]);
      ("required", VArray [VString "sql"])])];
  VObject [
    ("name", VString "delete");
    ("description",
     VString "Execute a DELETE SQL statement. Requires MYSQL_ALLOW_WRITE_OPS=true.");
    ("inputSchema", VObject [
      ("type", VString "object");
      ("properties", VObject [
        ("sql", VObject [
          ("type", VString "string");
          ("description", VString "The DELETE SQL statement.")])]);
      ("required", VArray [VString "sql"])])]
].

(** The handler of ListToolsRequestSchema *)
Definition ListTools : M value := ret (VObject [("tools", VArray tools)]).

(** ** Vocabulary of the further properties *)

(** The names that the catalog advertises, in its order. *)
Definition tool_names : list string :=
  map (fun t => as_string (get t "name")) tools.

(** The marker that a gateway function puts before the message of the
    driver. *)
Definition stage (toolName : string) : string :=
  if toolName =? "query" then "MySQL Query Error: "
  else "MySQL " ++ toUpperCase toolName ++ " Error: ".

(** The words of a rejection by the classifier. *)
Definition rejection (toolName : string) : string :=
  if toolName =? "query" then only_reads_allowed else not_a_statement_of toolName.

(** The ways a request ends: the two protocol errors, the two refusals by
    policy, the two failures of the driver, and success. *)
Inductive outcome (cfg : Config) (db : Driver) (toolName : string) (args : value)
  : completion CallToolResult * list event -> Prop :=
| unknown_tool :
    ~ In toolName tool_names ->
    outcome cfg db toolName args
      (Throw (McpError MethodNotFound ("Unknown tool: " ++ toolName)), [])
| writes_off :
    In toolName write_tools ->
    MYSQL_ALLOW_WRITE_OPS cfg = false ->
    outcome cfg db toolName args
      (Normal (error_content (writes_disabled toolName)), [])
| invalid_params :
    In toolName tool_names ->
    toolName = "query" \/ MYSQL_ALLOW_WRITE_OPS cfg = true ->
    ~ has_sql_string args ->
    outcome cfg db toolName args
      (Throw (McpError InvalidParams (invalid_arguments toolName)), [])
| rejected sql :
    In toolName tool_names ->
    toolName = "query" \/ MYSQL_ALLOW_WRITE_OPS cfg = true ->
    get args "sql" = VString sql ->
    accepted cfg toolName sql = false ->
    outcome cfg db toolName args
      (Normal (error_content (rejection toolName)), [])
| no_connection sql message :
    get args "sql" = VString sql ->
    accepted cfg toolName sql = true ->
    connect db (connectionConfig cfg) = Some message ->
    outcome cfg db toolName args
      (Normal (error_content (stage toolName ++ message)),
       [CreateConnection (connectionConfig cfg)])
| statement_failed sql message :
    get args "sql" = VString sql ->
    accepted cfg toolName sql = true ->
    connect db (connectionConfig cfg) = None ->
    run db sql = inl message ->
    outcome cfg db toolName args
      (Normal (error_content (stage toolName ++ message)), whole_call cfg sql)
| succeeded sql result content :
    get args "sql" = VString sql ->
    accepted cfg toolName sql = true ->
    connect db (connectionConfig cfg) = None ->
    run db sql = inr result ->
    outcome cfg db toolName args (Normal (text_content content), whole_call cfg sql).

(** A computation run from any state: how it completes, and the trace
    after it. *)
Definition run_from {A : Type} (st : state) (m : M A) : completion A * list event :=
  let (c, st') := m st in (c, trace st').

(** Two computations, one after the other, the second whatever the first
    has done. *)
Definition one_after_another {A B : Type} (m1 : M A) (m2 : M B)
  : M (completion A * completion B) :=
  fun st =>
    let (c1, st1) := m1 st in
    let (c2, st2) := m2 st1 in
    (Normal (c1, c2), st2).

Fixpoint no_whitespace (s : string) : bool :=
  match s with
  | String c r => negb (isWhiteSpace c) && no_whitespace r
  | EmptyString => true
  end.

Fixpoint all_whitespace (s : string) : bool :=
  match s with
  | String c r => isWhiteSpace c && all_whitespace r
  | EmptyString => true
  end.

(** Reading a quoted text back: the inverse of the escapes of
    QuoteJSONString, as JSON.parse reads a string. *)
Definition hex_value (c : ascii) : nat :=
  if between 48 57 (code c) then (code c - 48)%nat else (code c - 87)%nat.

Definition unescape (c : ascii) : ascii :=
  if (code c =? 98)%nat then ascii_of_nat 8
  else if (code c =? 116)%nat then ascii_of_nat 9
  else if (code c =? 110)%nat then ascii_of_nat 10
  else if (code c =? 102)%nat then ascii_of_nat 12
  else if (code c =? 114)%nat then ascii_of_nat 13
  else c.

Fixpoint unquote_units (s : string) : string :=
  match s with
  | String c r =>
      if (code c =? 92)%nat then
        match r with
        | String e r' =>
            if (code e =? 117)%nat then
              match r' with
              | String _ (String _ (String h1 (String h0 r''))) =>
                  String (ascii_of_nat (16 * hex_value h1 + hex_value h0))
                    (unquote_units r'')
              | _ => EmptyString
              end
            else String (unescape e) (unquote_units r')
        | EmptyString => EmptyString
        end
      else String c (unquote_units r)
  | EmptyString => EmptyString
  end.

(** No control character (below U+0020) in a text. *)
Fixpoint no_control (s : string) : bool :=
  match s with
  | String c r => (32 <=? code c)%nat && no_control r
  | EmptyString => true
  end.

(** [sub] occurs in [s], decided. *)
Fixpoint occurs_in (sub s : string) : bool :=
  String.prefix sub s
  || match s with
     | String _ r => occurs_in sub r
     | EmptyString => false
     end.

(** Validation of arguments against an input schema of the catalog, as a
    client does it with the keywords the catalog uses: [type], [required]
    and, for each listed property that is there, its [type]. *)
Definition has_type (t : string) (v : value) : bool :=
  if t =? "object" then match v with VObject _ => true | _ => false end
  else if t =? "array" then match v with VArray _ => true | _ => false end
  else if t =? "string" then match v with VString _ => true | _ => false end
  else if t =? "number" then match v with VNumber _ => true | _ => false end
  else if t =? "boolean" then match v with VBool _ => true | _ => false end
  else if t =? "null" then match v with VNull => true | _ => false end
  else false.

Definition type_conforms (schema v : value) : bool :=
  match get schema "type" with
  | VString t => has_type t v
  | _ => true
  end.

Definition conforms (schema args : value) : bool :=
  type_conforms schema args
  && match get schema "required" with
     | VArray names => forallb (fun k => has_property (as_string k) args) names
     | _ => true
     end
  && match get schema "properties" with
     | VObject ps =>
         forallb (fun kv => if has_property (fst kv) args
                            then type_conforms (snd kv) (get args (fst kv))
                            else true) ps
     | _ => true
     end.

(** A computation that only adds to the trace, and completes as it does from
    a fresh state. *)
Definition framed {A : Type} (m : M A) : Prop :=
  forall st, run_from st m = (fst (observe m), (trace st ++ snd (observe m))%list).

(** * Properties *)

(** ** Strings *)

Lemma append_assoc (a b c : string) : (a ++ b) ++ c = a ++ b ++ c.
Proof. induction a as [|x a IH]; simpl; [reflexivity | now rewrite IH]. Qed.

Lemma append_empty_r (a : string) : a ++ EmptyString = a.
Proof. induction a as [|x a IH]; simpl; [reflexivity | now rewrite IH]. Qed.

Lemma Contains_refl (s : string) : Contains s s.
Proof. exists EmptyString, EmptyString. simpl. now rewrite append_empty_r. Qed.

Lemma Contains_append_l (sub a b : string) : Contains sub a -> Contains sub (a ++ b).
Proof.
  intros (x & y & ->). exists x, (y ++ b).
  now rewrite !append_assoc.
Qed.

Lemma Contains_append_r (sub a b : string) : Contains sub b -> Contains sub (a ++ b).
Proof.
  intros (x & y & ->). exists (a ++ x), y.
  now rewrite !append_assoc.
Qed.

Lemma includes_In (l : list string) (x : string) :
  includes l x = true <-> In x l.
Proof.
  unfold includes. rewrite existsb_exists. split.
  - intros (y & Hy & E). apply String.eqb_eq in E. now subst.
  - intros H. exists x. split; [assumption | apply String.eqb_refl].
Qed.

Lemma write_tool_cases (toolName : string) :
  In toolName write_tools ->
  toolName = "insert" \/ toolName = "update" \/ toolName = "delete".
Proof. unfold write_tools. simpl. intuition. Qed.

(** ** Type guards *)

Lemma isValidQueryArgs_spec (args : value) :
  isValidQueryArgs args = true <-> has_sql_string args.
Proof.
  unfold has_sql_string. split.
  - destruct args; try discriminate. unfold isValidQueryArgs. simpl.
    destruct (lookup_property "sql" properties) as [[]|] eqn:E; try discriminate.
    intros _. eauto.
  - intros (ps & sql & -> & E). unfold isValidQueryArgs. simpl. now rewrite E.
Qed.

Lemma isValidQueryArgs_false (args : value) :
  ~ has_sql_string args -> isValidQueryArgs args = false.
Proof.
  intros H. destruct (isValidQueryArgs args) eqn:E; [|reflexivity].
  exfalso. apply H, isValidQueryArgs_spec, E.
Qed.

Lemma null_has_no_sql : ~ has_sql_string VNull.
Proof. intros (ps & sql & E & _). discriminate E. Qed.

(** ** Configuration *)

Lemma truthy_false (v : option string) :
  truthy v = false <-> v = None \/ v = Some EmptyString.
Proof.
  destruct v as [s|]; simpl.
  - rewrite negb_false_iff, String.eqb_eq. split.
    + intros ->. now right.
    + intros [?|?]; congruence.
  - split; auto.
Qed.

Lemma strict_equal_spec (v : option string) (lit : string) :
  strict_equal v lit = true <-> v = Some lit.
Proof.
  destruct v as [s|]; simpl.
  - rewrite String.eqb_eq. split; congruence.
  - split; discriminate.
Qed.

Lemma parse_digits_Some (s : string) (a : Z) :
  exists n, parse_digits (Some a) s = Some n.
Proof.
  revert a. induction s as [|c r IH]; intros a; simpl.
  - eauto.
  - destruct (digit_value c); [apply IH | eauto].
Qed.

Lemma parse_digits_None (s : string) :
  parse_digits None s = None <-> first_is_digit s = false.
Proof.
  destruct s as [|c r]; simpl.
  - tauto.
  - unfold digit_value, isDigit. destruct (between 48 57 (code c)).
    + match goal with
      | |- context [parse_digits (Some ?a) r] =>
          destruct (parse_digits_Some r a) as [n ->]
      end.
      split; discriminate.
    + tauto.
Qed.

Lemma parseInt10_NaN (s : string) :
  parseInt10 s = NaN <-> begins_with_numeral s = false.
Proof.
  unfold parseInt10, begins_with_numeral.
  destruct (trimStart s) as [|c r] eqn:E.
  - simpl. tauto.
  - destruct (Ascii.eqb c "-") eqn:Em; [|destruct (Ascii.eqb c "+") eqn:Ep];
      cbv beta iota zeta delta [orb].
    + rewrite <- parse_digits_None. destruct (parse_digits None r); split; intros H; (discriminate H || reflexivity).
    + rewrite <- parse_digits_None. destruct (parse_digits None r); split; intros H; (discriminate H || reflexivity).
    + change (isDigit c) with (first_is_digit (String c r)).
      rewrite <- parse_digits_None.
      destruct (parse_digits None (String c r)); split; intros H; (discriminate H || reflexivity).
Qed.

Lemma load_Exit (env : environment) :
  load env = Exit 1 <->
  missing env "MYSQL_HOST" \/ missing env "MYSQL_USER"
  \/ missing env "MYSQL_PASSWORD" \/ missing env "MYSQL_DATABASE".
Proof.
  unfold load, missing. rewrite <- !truthy_false.
  destruct (truthy (env !! "MYSQL_HOST")), (truthy (env !! "MYSQL_USER")),
    (truthy (env !! "MYSQL_PASSWORD")), (truthy (env !! "MYSQL_DATABASE"));
    simpl; split; intros H; try reflexivity; try discriminate H; intuition discriminate.
Qed.

Lemma load_Serving (env : environment) (cfg : Config) :
  load env = Serving cfg ->
  port (connectionConfig cfg) = MYSQL_PORT env
  /\ MYSQL_ALLOW_WRITE_OPS cfg = allow_write_ops env.
Proof.
  unfold load.
  destruct (_ || _); [discriminate|]. intros [= <-]. split; reflexivity.
Qed.

Lemma load_total (env : environment) :
  load env = Exit 1 \/ exists cfg, load env = Serving cfg.
Proof. unfold load. destruct (_ || _); eauto. Qed.

Lemma MYSQL_PORT_NaN (env : environment) :
  MYSQL_PORT env = NaN <->
  exists s, env !! "MYSQL_PORT" = Some s /\ s <> EmptyString
            /\ begins_with_numeral s = false.
Proof.
  unfold MYSQL_PORT. destruct (env !! "MYSQL_PORT") as [s|] eqn:E; simpl.
  - destruct (String.eqb_spec s EmptyString) as [->|Hs]; simpl.
    + split; [discriminate|]. intros (s & [= <-] & Hs & _). congruence.
    + rewrite parseInt10_NaN. split.
      * intros H. exists s. auto.
      * intros (s' & [= <-] & _ & H). exact H.
  - split; [discriminate|]. intros (s & [=] & _).
Qed.

(** ** The dispatcher *)

Lemma write_tool_not_query (toolName : string) :
  In toolName write_tools -> (toolName =? "query") = false.
Proof. intros H. destruct (write_tool_cases _ H) as [->|[->| ->]]; reflexivity. Qed.

Lemma CallTool_write (cfg : Config) (db : Driver) (toolName : string) (args : value) :
  In toolName write_tools ->
  CallTool cfg db toolName args =
    if negb (MYSQL_ALLOW_WRITE_OPS cfg) then
      ret (error_content (writes_disabled toolName))
    else if negb (isValidWriteArgs args) then
      throw (McpError InvalidParams (invalid_arguments toolName))
    else if negb (startsWith (normalized (as_string (get args "sql"))) toolName)
    then ret (error_content (not_a_statement_of toolName))
    else executeWrite cfg db (as_string (get args "sql")) toolName.
Proof.
  intros H. unfold CallTool. rewrite (write_tool_not_query _ H).
  apply includes_In in H. fold write_tools. rewrite H. reflexivity.
Qed.

Lemma disabled_write (cfg : Config) (db : Driver) (toolName : string) (args : value) :
  MYSQL_ALLOW_WRITE_OPS cfg = false ->
  In toolName write_tools ->
  handle cfg db toolName args = (Normal (error_content (writes_disabled toolName)), []).
Proof.
  intros Hflag H. unfold handle. rewrite CallTool_write by assumption.
  rewrite Hflag. reflexivity.
Qed.

(** C1: while the write-enable flag is false, every call of insert, update
    or delete, whatever its arguments, returns an outcome with isError set
    whose text names MYSQL_ALLOW_WRITE_OPS and the tool, and no call reaches
    the driver. *)
Theorem write_tools_disabled
  (cfg : Config) (db : Driver) (toolName : string) (args : value) :
  MYSQL_ALLOW_WRITE_OPS cfg = false ->
  In toolName write_tools ->
  exists r,
    handle cfg db toolName args = (Normal r, [])
    /\ isError r = true
    /\ text r = Some (writes_disabled toolName)
    /\ Contains "MYSQL_ALLOW_WRITE_OPS" (writes_disabled toolName)
    /\ Contains toolName (writes_disabled toolName).
Proof.
  intros Hflag H. exists (error_content (writes_disabled toolName)).
  split; [now apply disabled_write|].
  repeat split.
  - exists "Error: Write operations are disabled. Set ",
      ("=true in MCP settings to enable " ++ toolName ++ ".").
    reflexivity.
  - exists "Error: Write operations are disabled. Set MYSQL_ALLOW_WRITE_OPS=true in MCP settings to enable ",
      ".".
    reflexivity.
Qed.

Lemma write_tools_disabled_witness :
  exists r,
    handle (a_config false (Int 3306)) (answering (RowData [])) "insert"
      (sql_arguments "INSERT INTO t VALUES (1)") = (Normal r, [])
    /\ isError r = true
    /\ text r = Some (writes_disabled "insert")
    /\ Contains "MYSQL_ALLOW_WRITE_OPS" (writes_disabled "insert")
    /\ Contains "insert" (writes_disabled "insert").
Proof.
  apply (write_tools_disabled (a_config false (Int 3306)) (answering (RowData []))
           "insert" (sql_arguments "INSERT INTO t VALUES (1)")).
  - reflexivity.
  - simpl. auto.
Defined.

Lemma CallTool_query (cfg : Config) (db : Driver) (args : value) :
  CallTool cfg db "query" args =
    if negb (isValidQueryArgs args) then
      throw (McpError InvalidParams (invalid_arguments "query"))
    else if negb (startsWith (normalized (as_string (get args "sql"))) "select")
            && negb (startsWith (normalized (as_string (get args "sql"))) "show")
            && negb (startsWith (normalized (as_string (get args "sql"))) "describe")
    then ret (error_content only_reads_allowed)
    else executeQuery cfg db (as_string (get args "sql")).
Proof. reflexivity. Qed.

(** C2, as stated, fails: with the flag false, insert called with null
    arguments gets the write-disabled outcome, not an invalid-params
    error. *)
Lemma invalid_params_not_for_every_flag :
  ~ (forall (cfg : Config) (db : Driver) (toolName : string) (args : value),
       In toolName ("query" :: write_tools) ->
       ~ has_sql_string args ->
       handle cfg db toolName args
       = (Throw (McpError InvalidParams (invalid_arguments toolName)), [])).
Proof.
  intros H.
  specialize (H (a_config false (Int 3306)) (answering (RowData [])) "insert" VNull).
  discriminate H; [simpl; auto | apply null_has_no_sql].
Qed.

(** C2, amended: a call whose arguments are not an object with a string
    field sql throws the invalid-params protocol error, and no call reaches
    the driver, for the query tool under either value of the flag and for
    insert, update and delete when the flag is true. *)
Theorem invalid_params_before_database
  (cfg : Config) (db : Driver) (toolName : string) (args : value) :
  ~ has_sql_string args ->
  toolName = "query"
  \/ (In toolName write_tools /\ MYSQL_ALLOW_WRITE_OPS cfg = true) ->
  handle cfg db toolName args
  = (Throw (McpError InvalidParams (invalid_arguments toolName)), []).
Proof.
  intros Hargs [->|[H Hflag]]; apply isValidQueryArgs_false in Hargs.
  - unfold handle. rewrite CallTool_query, Hargs. reflexivity.
  - unfold handle. rewrite CallTool_write by assumption.
    rewrite Hflag. unfold isValidWriteArgs. fold (isValidQueryArgs args).
    rewrite Hargs. reflexivity.
Qed.

Lemma invalid_params_before_database_witness :
  handle (a_config true (Int 3306)) (answering (RowData [])) "update" VNull
  = (Throw (McpError InvalidParams (invalid_arguments "update")), []).
Proof.
  apply (invalid_params_before_database (a_config true (Int 3306))
           (answering (RowData [])) "update" VNull).
  - intros (ps & sql & E & _). discriminate E.
  - right. split; [simpl; auto | reflexivity].
Defined.

Example invalid_params_number_for_sql :
  handle (a_config false (Int 3306)) (answering (RowData [])) "query"
    (VObject [("sql", VNumber (Int 1))])
  = (Throw (McpError InvalidParams (invalid_arguments "query")), []).
Proof. reflexivity. Qed.

(** ** The execution gateway *)

Ltac run_gateway :=
  cbv beta iota zeta delta
    [observe executeQuery executeWrite try_catch bind createConnection execute
     end_ release_and_report assign_connection read_connection emit lift
     throw ret initial whole_call trace connection List.app].

Lemma build_message (u a i : string) (ba bi : bool) :
  (let message := u in
   let message := if ba then message ++ a else message in
   let message := if bi then message ++ i else message in
   message)
  = u ++ (if ba then a else EmptyString) ++ (if bi then i else EmptyString).
Proof.
  destruct ba, bi; cbv zeta iota; rewrite ?append_assoc, ?append_empty_r;
    reflexivity.
Qed.

Lemma observe_executeQuery (cfg : Config) (db : Driver) (sql : string) :
  observe (executeQuery cfg db sql) =
    match connect db (connectionConfig cfg) with
    | Some message =>
        (Normal (error_content ("MySQL Query Error: " ++ message)),
         [CreateConnection (connectionConfig cfg)])
    | None =>
        match run db sql with
        | inl message =>
            (Normal (error_content ("MySQL Query Error: " ++ message)),
             whole_call cfg sql)
        | inr rows =>
            match JSON_stringify (value_of rows) with
            | Normal json =>
                (Normal {| text := json; isError := false |}, whole_call cfg sql)
            | Throw e =>
                (Normal (error_content ("MySQL Query Error: " ++ message_of e)),
                 (whole_call cfg sql ++ [End])%list)
            end
        end
    end.
Proof.
  run_gateway.
  destruct (connect db (connectionConfig cfg)); [reflexivity|].
  destruct (run db sql); [reflexivity|].
  destruct (JSON_stringify (value_of q)); reflexivity.
Qed.

Lemma observe_executeWrite (cfg : Config) (db : Driver) (sql operation : string) :
  observe (executeWrite cfg db sql operation) =
    match connect db (connectionConfig cfg) with
    | Some message =>
        (Normal (error_content ("MySQL " ++ toUpperCase operation ++ " Error: " ++ message)),
         [CreateConnection (connectionConfig cfg)])
    | None =>
        match run db sql with
        | inl message =>
            (Normal (error_content ("MySQL " ++ toUpperCase operation ++ " Error: " ++ message)),
             whole_call cfg sql)
        | inr result =>
            (Normal (text_content (confirmation operation (value_of result))),
             whole_call cfg sql)
        end
    end.
Proof.
  run_gateway.
  destruct (connect db (connectionConfig cfg)).
  { now rewrite !append_assoc. }
  destruct (run db sql).
  { now rewrite !append_assoc. }
  unfold confirmation.
  rewrite <- (append_assoc (toUpperCase operation) " successful.").
  rewrite <- build_message. cbv zeta.
  rewrite !append_assoc. reflexivity.
Qed.

Lemma gateway_reaches_driver_query (cfg : Config) (db : Driver) (sql : string) :
  exists c rest,
    observe (executeQuery cfg db sql)
    = (c, CreateConnection (connectionConfig cfg) :: rest).
Proof.
  rewrite observe_executeQuery. unfold whole_call.
  destruct (connect db _); [eauto|].
  destruct (run db sql); [eauto|].
  destruct (JSON_stringify _); simpl; eauto.
Qed.

Lemma gateway_reaches_driver_write (cfg : Config) (db : Driver) (sql operation : string) :
  exists c rest,
    observe (executeWrite cfg db sql operation)
    = (c, CreateConnection (connectionConfig cfg) :: rest).
Proof.
  rewrite observe_executeWrite. unfold whole_call.
  destruct (connect db _); [eauto|].
  destruct (run db sql); eauto.
Qed.

Lemma leading_token_prefix (s : string) :
  String.prefix (leading_token s) s = true.
Proof.
  induction s as [|c r IH]; simpl; [reflexivity|].
  destruct (isWordChar c); simpl; [|reflexivity].
  destruct (ascii_dec c c); [assumption | contradiction].
Qed.

(** ** The classifier *)

(** C3, as stated, fails: the leading token of [selectx 1] is none of
    select, show and describe, and the statement goes to the database. *)
Lemma leading_token_not_what_query_checks :
  ~ (forall (cfg : Config) (db : Driver) (sql : string),
       ~ In (leading_token (normalized sql)) ["select"; "show"; "describe"] ->
       handle cfg db "query" (sql_arguments sql)
       = (Normal (error_content only_reads_allowed), [])).
Proof.
  intros H.
  specialize (H (a_config false (Int 3306)) (rejecting "syntax error") "selectx 1").
  assert (Hx : leading_token (normalized "selectx 1") = "selectx") by reflexivity.
  rewrite Hx in H.
  assert (Hn : ~ In "selectx" ["select"; "show"; "describe"]).
  { simpl. intros [E|[E|[E|[]]]]; discriminate E. }
  specialize (H Hn). vm_compute in H. discriminate H.
Qed.

(** C3, amended: a query call whose statement, lower-cased and trimmed,
    does not begin with the characters select, show or describe returns the
    outcome with isError set that says that only SELECT, SHOW or DESCRIBE
    are allowed, and no call reaches the driver. *)
Theorem query_rejects_other_prefixes
  (cfg : Config) (db : Driver) (args : value) :
  isValidQueryArgs args = true ->
  startsWith (normalized (as_string (get args "sql"))) "select" = false ->
  startsWith (normalized (as_string (get args "sql"))) "show" = false ->
  startsWith (normalized (as_string (get args "sql"))) "describe" = false ->
  exists r,
    handle cfg db "query" args = (Normal r, [])
    /\ isError r = true
    /\ text r = Some only_reads_allowed
    /\ Contains "Only SELECT, SHOW, or DESCRIBE queries are allowed" only_reads_allowed.
Proof.
  intros Hargs H1 H2 H3. exists (error_content only_reads_allowed).
  unfold handle. rewrite CallTool_query, Hargs, H1, H2, H3.
  repeat split.
  exists "Error: ", (" for the " ++ dquote ++ "query" ++ dquote ++ " tool.").
  reflexivity.
Qed.

Lemma query_rejects_other_prefixes_witness :
  exists r,
    handle (a_config true (Int 3306)) (answering (RowData [])) "query"
      (sql_arguments "  DROP TABLE t") = (Normal r, [])
    /\ isError r = true
    /\ text r = Some only_reads_allowed
    /\ Contains "Only SELECT, SHOW, or DESCRIBE queries are allowed" only_reads_allowed.
Proof.
  apply (query_rejects_other_prefixes (a_config true (Int 3306))
           (answering (RowData [])) (sql_arguments "  DROP TABLE t"));
    reflexivity.
Defined.

(** C4, as stated, fails: with the flag true, the first token of [insertx]
    is not insert, and the insert tool still runs the statement. *)
Lemma first_token_not_what_write_checks :
  ~ (forall (cfg : Config) (db : Driver) (toolName sql : string),
       MYSQL_ALLOW_WRITE_OPS cfg = true ->
       In toolName write_tools ->
       (handle cfg db toolName (sql_arguments sql)
        = observe (executeWrite cfg db sql toolName)
        <-> leading_token (normalized sql) = toolName)
       /\ (leading_token (normalized sql) <> toolName ->
           exists r, handle cfg db toolName (sql_arguments sql) = (Normal r, [])
                     /\ isError r = true)).
Proof.
  intros H.
  destruct (H (a_config true (Int 3306)) (rejecting "syntax error") "insert" "insertx")
    as [_ H2]; [reflexivity | simpl; auto |].
  destruct H2 as (r & E & _).
  - vm_compute. discriminate.
  - vm_compute in E. discriminate E.
Qed.

(** C4, amended: with the flag true, a call of insert, update or delete goes
    to the write path of the gateway if and only if the statement,
    lower-cased and trimmed, begins with the characters of the tool name
    (as it does whenever its first token is the tool name); otherwise an
    outcome with isError set is returned and nothing reaches the driver. *)
Theorem write_accepts_by_prefix
  (cfg : Config) (db : Driver) (toolName : string) (args : value) :
  MYSQL_ALLOW_WRITE_OPS cfg = true ->
  In toolName write_tools ->
  isValidWriteArgs args = true ->
  (handle cfg db toolName args
   = observe (executeWrite cfg db (as_string (get args "sql")) toolName)
   <-> startsWith (normalized (as_string (get args "sql"))) toolName = true)
  /\ (startsWith (normalized (as_string (get args "sql"))) toolName = false ->
      handle cfg db toolName args
      = (Normal (error_content (not_a_statement_of toolName)), []))
  /\ (leading_token (normalized (as_string (get args "sql"))) = toolName ->
      startsWith (normalized (as_string (get args "sql"))) toolName = true).
Proof.
  intros Hflag H Hargs. unfold handle.
  rewrite CallTool_write by assumption. rewrite Hflag, Hargs.
  cbv beta iota delta [negb].
  destruct (startsWith (normalized (as_string (get args "sql"))) toolName) eqn:E.
  - repeat split; auto; discriminate.
  - split; [|split].
    + split; [|discriminate]. intros Heq.
      destruct (gateway_reaches_driver_write cfg db (as_string (get args "sql")) toolName)
        as (c & rest & Hw).
      rewrite Hw in Heq. discriminate Heq.
    + reflexivity.
    + intros Ht. rewrite <- E. unfold startsWith. rewrite <- Ht at 1.
      apply leading_token_prefix.
Qed.

Lemma write_accepts_by_prefix_witness :
  handle (a_config true (Int 3306)) (rejecting "no such table") "update"
    (sql_arguments "DELETE FROM t")
  = (Normal (error_content (not_a_statement_of "update")), []).
Proof.
  apply (write_accepts_by_prefix (a_config true (Int 3306)) (rejecting "no such table")
           "update" (sql_arguments "DELETE FROM t")).
  - reflexivity.
  - simpl. auto.
  - reflexivity.
  - reflexivity.
Defined.



Example unreachable_database :
  observe (executeQuery (a_config false (Int 3306)) (unreachable "connect ECONNREFUSED")
             "SELECT 1")
  = (Normal (error_content "MySQL Query Error: connect ECONNREFUSED"),
     [CreateConnection (connectionConfig (a_config false (Int 3306)))]).
Proof. reflexivity. Qed.

Lemma lookup_property_In (ps : list (string * value)) (k : string) (v : value) :
  List.NoDup (map fst ps) -> In (k, v) ps -> lookup_property k ps = Some v.
Proof.
  induction ps as [|[k' v'] ps IH]; intros Hnd Hin; [destruct Hin|].
  inversion Hnd as [|x l Hx Hl]; subst. cbn [lookup_property].
  destruct Hin as [E|Hin].
  - injection E as -> ->. now rewrite String.eqb_refl.
  - destruct (String.eqb_spec k' k) as [->|_]; [|now apply IH].
    exfalso. apply Hx. change k with (fst (k, v)). now apply in_map.
Qed.

Lemma lookup_property_absent (ps : list (string * value)) (k : string) :
  ~ In k (map fst ps) -> lookup_property k ps = None.
Proof.
  induction ps as [|[k' v'] ps IH]; intros Hk; [reflexivity|].
  cbn [lookup_property]. destruct (String.eqb_spec k' k) as [->|_].
  - exfalso. apply Hk. left. reflexivity.
  - apply IH. intros H. apply Hk. right. exact H.
Qed.

Lemma OPERATION_toUpperCase (operation : string) :
  In operation write_tools -> toUpperCase operation = OPERATION operation.
Proof. intros H. destruct (write_tool_cases _ H) as [->|[->| ->]]; reflexivity. Qed.

(** C7: a write that succeeds returns the operation in upper case followed
    by [ successful.], then [ Affected rows: n.] exactly when the result
    holds an affected-row count [n], then [ Insert ID: id.] exactly when the
    result holds an insert id that is not zero; an insert id of 0 gives no
    such clause, and a delete with 3 affected rows gives exactly
    [DELETE successful. Affected rows: 3.].  The result is the header of the
    driver, an object whose counts, when present, are Numbers of safe
    integers. *)
Theorem write_confirmation
  (cfg : Config) (db : Driver) (sql operation : string)
  (ps : list (string * value)) (count id : option Z) :
  In operation write_tools ->
  connect db (connectionConfig cfg) = None ->
  run db sql = inr (ResultSetHeader ps) ->
  List.NoDup (map fst ps) ->
  number_field ps "affectedRows" count ->
  number_field ps "insertId" id ->
  observe (executeWrite cfg db sql operation)
  = (Normal {| text := Some (OPERATION operation ++ " successful."
                             ++ affected_clause count ++ insert_clause id);
               isError := false |},
     [CreateConnection (connectionConfig cfg); Execute sql; End]).
Proof.
  intros Hop Hc Hr Hnd Hcount Hid.
  rewrite observe_executeWrite, Hc, Hr.
  assert (Ha : lookup_property "affectedRows" ps
               = option_map (fun n => VNumber (Int n)) count).
  { destruct count as [n|]; cbn [number_field option_map] in *.
    - destruct Hcount as [Hin _]. exact (lookup_property_In ps _ _ Hnd Hin).
    - exact (lookup_property_absent ps _ Hcount). }
  assert (Hi : lookup_property "insertId" ps
               = option_map (fun n => VNumber (Int n)) id).
  { destruct id as [i|]; cbn [number_field option_map] in *.
    - destruct Hid as [Hin _]. exact (lookup_property_In ps _ _ Hnd Hin).
    - exact (lookup_property_absent ps _ Hid). }
  unfold text_content, whole_call, confirmation.
  rewrite (OPERATION_toUpperCase operation Hop).
  cbn [value_of has_property get]. rewrite Ha, Hi.
  destruct count as [n|], id as [[|p|p]|]; reflexivity.
Qed.

Lemma write_confirmation_witness :
  observe (executeWrite (a_config true (Int 3306))
             (answering (ResultSetHeader [("affectedRows", VNumber (Int 3));
                                          ("insertId", VNumber (Int 0))]))
             "DELETE FROM t WHERE id=1" "delete")
  = (Normal {| text := Some "DELETE successful. Affected rows: 3."; isError := false |},
     [CreateConnection (connectionConfig (a_config true (Int 3306)));
      Execute "DELETE FROM t WHERE id=1"; End]).
Proof.
  apply (write_confirmation (a_config true (Int 3306))
           (answering (ResultSetHeader [("affectedRows", VNumber (Int 3));
                                        ("insertId", VNumber (Int 0))]))
           "DELETE FROM t WHERE id=1" "delete"
           [("affectedRows", VNumber (Int 3)); ("insertId", VNumber (Int 0))]
           (Some 3%Z) (Some 0%Z)).
  - simpl. auto.
  - reflexivity.
  - reflexivity.
  - repeat constructor; simpl; intuition discriminate.
  - split; [simpl; auto | unfold safe_integer; lia].
  - split; [simpl; auto | unfold safe_integer; lia].
Defined.

Example delete_three_rows :
  handle (a_config true (Int 3306))
    (answering (ResultSetHeader [("affectedRows", VNumber (Int 3));
                                 ("insertId", VNumber (Int 0))]))
    "delete" (sql_arguments "DELETE FROM t WHERE id=1")
  = (Normal {| text := Some "DELETE successful. Affected rows: 3."; isError := false |},
     [CreateConnection (connectionConfig (a_config true (Int 3306)));
      Execute "DELETE FROM t WHERE id=1"; End]).
Proof. reflexivity. Qed.

Example insert_id_42 :
  confirmation "insert"
    (VObject [("affectedRows", VNumber (Int 1)); ("insertId", VNumber (Int 42))])
  = "INSERT successful. Affected rows: 1. Insert ID: 42.".
Proof. reflexivity. Qed.

Example insert_id_0 :
  confirmation "insert"
    (VObject [("affectedRows", VNumber (Int 1)); ("insertId", VNumber (Int 0))])
  = "INSERT successful. Affected rows: 1.".
Proof. reflexivity. Qed.

Lemma accepted_query (cfg : Config) (sql : string) :
  accepted cfg "query" sql = true ->
  negb (startsWith (normalized sql) "select")
  && negb (startsWith (normalized sql) "show")
  && negb (startsWith (normalized sql) "describe") = false.
Proof.
  unfold accepted. simpl.
  destruct (startsWith _ "select"), (startsWith _ "show"), (startsWith _ "describe");
    simpl; intros H; (reflexivity || discriminate H).
Qed.

Lemma accepted_write (cfg : Config) (toolName sql : string) :
  (toolName =? "query") = false ->
  accepted cfg toolName sql = true ->
  In toolName write_tools /\ MYSQL_ALLOW_WRITE_OPS cfg = true
  /\ startsWith (normalized sql) toolName = true.
Proof.
  unfold accepted. intros ->. rewrite !andb_true_iff, includes_In. tauto.
Qed.

Lemma accepted_goes_to_gateway
  (cfg : Config) (db : Driver) (toolName : string) (args : value) (sql : string) :
  isValidQueryArgs args = true ->
  get args "sql" = VString sql ->
  accepted cfg toolName sql = true ->
  handle cfg db toolName args
  = observe (if toolName =? "query" then executeQuery cfg db sql
             else executeWrite cfg db sql toolName).
Proof.
  intros Hargs Hsql Hacc.
  unfold handle. destruct (toolName =? "query") eqn:Eq.
  - apply String.eqb_eq in Eq. subst toolName.
    rewrite CallTool_query, Hargs, Hsql. cbn [negb as_string].
    now rewrite (accepted_query cfg sql Hacc).
  - destruct (accepted_write cfg toolName sql Eq Hacc) as (Hin & Hflag & Hpre).
    rewrite CallTool_write by assumption.
    unfold isValidWriteArgs. fold (isValidQueryArgs args).
    rewrite Hflag, Hargs, Hsql. cbn [negb as_string]. now rewrite Hpre.
Qed.

(** C8: the statement of an accepted call goes to the gateway, and from
    there to the driver, as the string of the arguments, unchanged; the
    lower-cased and trimmed copy serves the classification only. *)
Theorem original_statement_executed
  (cfg : Config) (db : Driver) (toolName : string) (args : value) (sql : string) :
  isValidQueryArgs args = true ->
  get args "sql" = VString sql ->
  accepted cfg toolName sql = true ->
  handle cfg db toolName args
  = observe (if toolName =? "query" then executeQuery cfg db sql
             else executeWrite cfg db sql toolName)
  /\ (forall s, In (Execute s) (snd (handle cfg db toolName args)) -> s = sql)
  /\ (connect db (connectionConfig cfg) = None ->
      In (Execute sql) (snd (handle cfg db toolName args))).
Proof.
  intros Hargs Hsql Hacc.
  rewrite (accepted_goes_to_gateway cfg db toolName args sql Hargs Hsql Hacc).
  split; [reflexivity|].
  destruct (toolName =? "query").
  - rewrite observe_executeQuery. unfold whole_call.
    destruct (connect db _); [|destruct (run db sql); [|destruct (JSON_stringify _)]];
      simpl; (split; [intros stmt Hin | intros H']);
      try discriminate H'; intuition congruence.
  - rewrite observe_executeWrite. unfold whole_call.
    destruct (connect db _); [|destruct (run db sql)];
      simpl; (split; [intros stmt Hin | intros H']);
      try discriminate H'; intuition congruence.
Qed.

Lemma original_statement_executed_witness :
  handle (a_config true (Int 3306)) (answering (RowData [])) "query"
    (sql_arguments "   Select 1  ")
  = observe (executeQuery (a_config true (Int 3306)) (answering (RowData [])) "   Select 1  ")
  /\ In (Execute "   Select 1  ")
       (snd (handle (a_config true (Int 3306)) (answering (RowData [])) "query"
               (sql_arguments "   Select 1  "))).
Proof.
  pose proof (original_statement_executed (a_config true (Int 3306))
    (answering (RowData [])) "query" (sql_arguments "   Select 1  ") "   Select 1  "
    eq_refl eq_refl eq_refl) as (H1 & _ & H3).
  split; [exact H1 | exact (H3 eq_refl)].
Defined.

(** ** The configuration loader *)

(** C9: the write-enable flag is true exactly when MYSQL_ALLOW_WRITE_OPS is
    the string [true]; with TRUE, True, 1, yes or no value at all, the flag
    is false, and whenever it is not [true] the three write tools answer
    that writes are disabled. *)
Theorem write_flag_exactly_true (env : environment) (cfg : Config) :
  load env = Serving cfg ->
  (MYSQL_ALLOW_WRITE_OPS cfg = true <-> env !! "MYSQL_ALLOW_WRITE_OPS" = Some "true")
  /\ (In (env !! "MYSQL_ALLOW_WRITE_OPS")
         [Some "TRUE"; Some "True"; Some "1"; Some "yes"; None] ->
      MYSQL_ALLOW_WRITE_OPS cfg = false)
  /\ (env !! "MYSQL_ALLOW_WRITE_OPS" <> Some "true" ->
      forall (db : Driver) (toolName : string) (args : value),
        In toolName write_tools ->
        handle cfg db toolName args
        = (Normal (error_content (writes_disabled toolName)), [])).
Proof.
  intros Hload. apply load_Serving in Hload as [_ Hflag].
  unfold allow_write_ops in Hflag.
  assert (Hiff : MYSQL_ALLOW_WRITE_OPS cfg = true
                 <-> env !! "MYSQL_ALLOW_WRITE_OPS" = Some "true").
  { rewrite Hflag. apply strict_equal_spec. }
  split; [exact Hiff|]. split.
  - intros Hin. rewrite Hflag.
    simpl in Hin. destruct Hin as [<-|[<-|[<-|[<-|[<-|[]]]]]]; reflexivity.
  - intros Hne db toolName args Hin. apply disabled_write; [|assumption].
    destruct (MYSQL_ALLOW_WRITE_OPS cfg); [|reflexivity].
    exfalso. apply Hne, Hiff. reflexivity.
Qed.

Lemma write_flag_exactly_true_witness :
  MYSQL_ALLOW_WRITE_OPS (a_config false (Int 3306)) = false
  /\ handle (a_config false (Int 3306)) (answering (RowData [])) "delete"
       (sql_arguments "DELETE FROM t")
     = (Normal (error_content (writes_disabled "delete")), []).
Proof.
  pose proof (write_flag_exactly_true
    (an_environment [("MYSQL_ALLOW_WRITE_OPS", "TRUE")]) (a_config false (Int 3306))
    eq_refl) as (_ & H2 & H3).
  split.
  - apply H2. simpl. auto.
  - apply H3; [discriminate | simpl; auto].
Defined.

(** C10, as stated, fails: [12abc] is set and is not numeric, and the port
    it gives is 12, not NaN. *)
Lemma non_numeric_port_not_always_NaN :
  ~ (forall (env : environment),
       (load env = Exit 1 ->
        missing env "MYSQL_HOST" \/ missing env "MYSQL_USER"
        \/ missing env "MYSQL_PASSWORD" \/ missing env "MYSQL_DATABASE")
       /\ (forall s, env !! "MYSQL_PORT" = Some s -> numeric s = false ->
                     load env <> Exit 1 ->
                     exists cfg, load env = Serving cfg
                                 /\ port (connectionConfig cfg) = NaN)).
Proof.
  intros H.
  destruct (H (an_environment [("MYSQL_PORT", "12abc")])) as [_ H2].
  destruct (H2 "12abc") as (cfg & Hload & Hport).
  - reflexivity.
  - reflexivity.
  - discriminate.
  - vm_compute in Hload. injection Hload as <-. discriminate Hport.
Qed.

Example port_12abc : MYSQL_PORT (an_environment [("MYSQL_PORT", "12abc")]) = Int 12.
Proof. reflexivity. Qed.

Example port_default : MYSQL_PORT (an_environment []) = Int 3306.
Proof. reflexivity. Qed.

(** C10, amended: startup fails exactly when one of host, user, password
    and database is not set or is empty; the port is never validated: for
    every set, non-empty MYSQL_PORT that does not begin, after white space
    and one sign, with a decimal digit, the port is NaN, the server starts,
    and every accepted query hands that configuration to the driver; these
    are the only values that give NaN (digits followed by other text parse
    as the digits). *)
Theorem port_never_validated (env : environment) :
  (load env = Exit 1 <->
   missing env "MYSQL_HOST" \/ missing env "MYSQL_USER"
   \/ missing env "MYSQL_PASSWORD" \/ missing env "MYSQL_DATABASE")
  /\ (forall s, env !! "MYSQL_PORT" = Some s -> s <> EmptyString ->
                begins_with_numeral s = false ->
                load env <> Exit 1 ->
                exists cfg,
                  load env = Serving cfg
                  /\ port (connectionConfig cfg) = NaN
                  /\ forall (db : Driver) (sql : string),
                       accepted cfg "query" sql = true ->
                       exists c rest,
                         handle cfg db "query" (sql_arguments sql)
                         = (c, CreateConnection (connectionConfig cfg) :: rest))
  /\ (forall cfg, load env = Serving cfg ->
        (port (connectionConfig cfg) = NaN <->
         exists s, env !! "MYSQL_PORT" = Some s /\ s <> EmptyString
                   /\ begins_with_numeral s = false)).
Proof.
  split; [apply load_Exit|]. split.
  - intros s Hs Hne Hnum Hstart.
    destruct (load_total env) as [E|[cfg E]]; [contradiction|].
    exists cfg. split; [exact E|].
    destruct (load_Serving env cfg E) as [Hport _].
    split.
    + rewrite Hport. apply MYSQL_PORT_NaN. eauto.
    + intros db sql Hacc.
      rewrite (accepted_goes_to_gateway cfg db "query" (sql_arguments sql) sql
                 eq_refl eq_refl Hacc).
      apply gateway_reaches_driver_query.
  - intros cfg E. destruct (load_Serving env cfg E) as [-> _].
    apply MYSQL_PORT_NaN.
Qed.

Lemma port_never_validated_witness :
  exists cfg,
    load (an_environment [("MYSQL_PORT", "abc")]) = Serving cfg
    /\ port (connectionConfig cfg) = NaN
    /\ forall (db : Driver) (sql : string),
         accepted cfg "query" sql = true ->
         exists c rest,
           handle cfg db "query" (sql_arguments sql)
           = (c, CreateConnection (connectionConfig cfg) :: rest).
Proof.
  destruct (port_never_validated (an_environment [("MYSQL_PORT", "abc")]))
    as (_ & H & _).
  apply (H "abc").
  - reflexivity.
  - discriminate.
  - reflexivity.
  - discriminate.
Defined.

(** ** Serialization *)

Lemma value_induction (P : value -> Prop) :
  P VUndefined -> P VNull -> (forall b, P (VBool b)) -> (forall n, P (VNumber n)) ->
  (forall s, P (VString s)) -> (forall z, P (VBigInt z)) ->
  (forall l, Forall P l -> P (VArray l)) ->
  (forall ps, Forall (fun kv => P (snd kv)) ps -> P (VObject ps)) ->
  forall v, P v.
Proof.
  intros Hu Hn Hb Hnum Hs Hz Harr Hobj. fix IH 1.
  intros [ | |b|n|s|z|l|ps].
  - exact Hu.
  - exact Hn.
  - exact (Hb b).
  - exact (Hnum n).
  - exact (Hs s).
  - exact (Hz z).
  - apply Harr. induction l as [|x l IHl]; constructor; [apply IH | exact IHl].
  - apply Hobj. induction ps as [|[k x] ps IHps]; constructor; [apply IH | exact IHps].
Qed.

Lemma SerializeJSONProperty_replacer (indent key : string) (v : value) :
  SerializeJSONProperty indent key v
  = serialize_value SerializeJSONProperty indent (replacer key v).
Proof. destruct v; reflexivity. Qed.

Lemma Contains_trans (a b c : string) : Contains a b -> Contains b c -> Contains a c.
Proof.
  intros (x & y & ->) (x' & y' & ->). exists (x' ++ x), (y ++ y').
  now rewrite !append_assoc.
Qed.

Lemma Contains_join (sep str : string) (l : list string) :
  In str l -> Contains str (join sep l).
Proof.
  induction l as [|x l IH]; [intros []|].
  intros [->|Hin].
  - destruct l; [apply Contains_refl | apply Contains_append_l, Contains_refl].
  - destruct l as [|y l]; [destruct Hin|].
    change (join sep (x :: y :: l)) with (x ++ sep ++ join sep (y :: l)).
    apply Contains_append_r, Contains_append_r, IH, Hin.
Qed.

Lemma Contains_wrap (open close stepback sub str : string) (partial : list string) :
  In str partial -> Contains sub str ->
  Contains sub (wrap open close stepback partial).
Proof.
  intros Hin Hsub. destruct partial as [|p partial]; [destruct Hin|].
  unfold wrap.
  do 3 apply Contains_append_r. apply Contains_append_l.
  eapply Contains_trans; [exact Hsub | apply Contains_join, Hin].
Qed.

Lemma holds_bigint_defined (z : Z) (v : value) : holds_bigint z v -> v <> VUndefined.
Proof. intros H E. subst v. inversion H. Qed.

Lemma serialize_elements_ok (l : list value) :
  Forall serializes l ->
  forall (indent : string) (index : nat),
    exists partial,
      serialize_elements SerializeJSONProperty indent index l = Normal partial
      /\ forall z x, In x l -> holds_bigint z x ->
           exists str, In str partial /\ Contains (QuoteJSONString (decimal z)) str.
Proof.
  induction 1 as [|x l Hx _ IH]; intros indent index.
  - exists []. split; [reflexivity | intros z x []].
  - destruct (Hx indent (decimal (Z.of_nat index))) as (o & Eo & Ho).
    destruct (IH indent (S index)) as (partial & Ep & Hp).
    exists (default "null" o :: partial). split.
    + cbn [serialize_elements]. now rewrite Eo, Ep.
    + intros z x' [<-|Hin] Hz.
      * destruct (Ho (holds_bigint_defined z x Hz)) as (str & -> & Hstr).
        exists str. split; [left; reflexivity | apply Hstr, Hz].
      * destruct (Hp z x' Hin Hz) as (str & Hin' & Hstr).
        exists str. split; [right; exact Hin' | exact Hstr].
Qed.

Lemma serialize_members_ok (ps : list (string * value)) :
  Forall (fun kv => serializes (snd kv)) ps ->
  forall indent : string,
    exists partial,
      serialize_members SerializeJSONProperty indent ps = Normal partial
      /\ forall z k x, In (k, x) ps -> holds_bigint z x ->
           exists str, In str partial /\ Contains (QuoteJSONString (decimal z)) str.
Proof.
  induction 1 as [|[k x] ps Hx _ IH]; intros indent.
  - exists []. split; [reflexivity | intros z k x []].
  - destruct (Hx indent k) as (o & Eo & Ho). simpl in Eo, Ho.
    destruct (IH indent) as (partial & Ep & Hp).
    destruct o as [str|].
    + exists ((QuoteJSONString k ++ ": " ++ str) :: partial). split.
      * cbn [serialize_members]. now rewrite Eo, Ep.
      * intros z k' x' [[= <- <-]|Hin] Hz.
        -- destruct (Ho (holds_bigint_defined z x Hz)) as (str' & [= <-] & Hstr).
           exists (QuoteJSONString k ++ ": " ++ str). split; [left; reflexivity|].
           apply Contains_append_r, Contains_append_r, Hstr, Hz.
        -- destruct (Hp z k' x' Hin Hz) as (s' & Hin' & Hs').
           exists s'. split; [right; exact Hin' | exact Hs'].
    + exists partial. split.
      * cbn [serialize_members]. now rewrite Eo, Ep.
      * intros z k' x' [[= <- <-]|Hin] Hz.
        -- destruct (Ho (holds_bigint_defined z x Hz)) as (str' & [=] & _).
        -- exact (Hp z k' x' Hin Hz).
Qed.

Lemma every_value_serializes (v : value) : serializes v.
Proof.
  induction v as [ | |b|n|s|z0|l IH|ps IH] using value_induction;
    intros indent key; rewrite SerializeJSONProperty_replacer.
  - exists None. split; [reflexivity | intros H; now destruct H].
  - exists (Some "null"). split; [reflexivity|]. intros _.
    eexists. split; [reflexivity|]. intros z H. inversion H.
  - destruct b; eexists; (split; [reflexivity|]); intros _;
      (eexists; split; [reflexivity|]); intros z H; inversion H.
  - destruct n; eexists; (split; [reflexivity|]); intros _;
      (eexists; split; [reflexivity|]); intros big H; inversion H.
  - eexists. split; [reflexivity|]. intros _.
    eexists. split; [reflexivity|]. intros z H. inversion H.
  - eexists. split; [reflexivity|]. intros _.
    eexists. split; [reflexivity|]. intros z H. inversion H. subst.
    apply Contains_refl.
  - destruct (serialize_elements_ok l IH (indent ++ gap) 0) as (partial & Ep & Hp).
    exists (Some (wrap "[" "]" indent partial)). split.
    + change (replacer key (VArray l)) with (VArray l).
      cbn [serialize_value]. now rewrite Ep.
    + intros _. eexists. split; [reflexivity|]. intros z H. inversion H; subst.
      destruct (Hp z x) as (str & Hin & Hstr); try assumption.
      eapply Contains_wrap; eassumption.
  - destruct (serialize_members_ok ps IH (indent ++ gap)) as (partial & Ep & Hp).
    exists (Some (wrap "{" "}" indent partial)). split.
    + change (replacer key (VObject ps)) with (VObject ps).
      cbn [serialize_value]. now rewrite Ep.
    + intros _. eexists. split; [reflexivity|]. intros z H. inversion H; subst.
      destruct (Hp z k x) as (str & Hin & Hstr); try assumption.
      eapply Contains_wrap; eassumption.
Qed.

Lemma quote_units_uint (d : Decimal.uint) :
  quote_units (NilEmpty.string_of_uint d) = NilEmpty.string_of_uint d.
Proof.
  induction d as [|d IH|d IH|d IH|d IH|d IH|d IH|d IH|d IH|d IH|d IH];
    [reflexivity | ..];
    cbn [NilEmpty.string_of_uint quote_units]; rewrite IH; reflexivity.
Qed.

Lemma all_digits_uint (d : Decimal.uint) :
  all_digits (NilEmpty.string_of_uint d) = true.
Proof.
  induction d as [|d IH|d IH|d IH|d IH|d IH|d IH|d IH|d IH|d IH|d IH];
    [reflexivity | ..];
    cbn [NilEmpty.string_of_uint all_digits]; rewrite IH; reflexivity.
Qed.

Lemma quote_units_decimal (z : Z) : quote_units (decimal z) = decimal z.
Proof.
  unfold decimal.
  destruct z as [|p|p]; [reflexivity | |]; cbn [Z.to_int NilZero.string_of_int].
  - unfold NilZero.string_of_uint.
    destruct (Pos.to_uint p) eqn:E; try (rewrite <- E; apply quote_units_uint).
    reflexivity.
  - unfold NilZero.string_of_uint. cbn [quote_units].
    destruct (Pos.to_uint p) eqn:E;
      try (rewrite <- E, quote_units_uint; reflexivity).
    reflexivity.
Qed.

Lemma QuoteJSONString_decimal (z : Z) :
  QuoteJSONString (decimal z) = dquote ++ decimal z ++ dquote.
Proof. unfold QuoteJSONString. now rewrite quote_units_decimal. Qed.

Lemma all_digits_decimal (z : Z) : (0 <= z)%Z -> all_digits (decimal z) = true.
Proof.
  unfold decimal. destruct z as [|p|p]; intros H; [reflexivity | | lia].
  cbn [Z.to_int NilZero.string_of_int]. unfold NilZero.string_of_uint.
  destruct (Pos.to_uint p) eqn:E; try (rewrite <- E; apply all_digits_uint).
  reflexivity.
Qed.

Lemma denoted_decimal (z : Z) : denoted (decimal z) = Some z.
Proof.
  unfold denoted, decimal. rewrite NilZero.isi.
  - simpl. now rewrite DecimalZ.of_to.
  - destruct z as [|p|p]; try discriminate.
    simpl. intros [= E]. now apply (DecimalPos.Unsigned.to_uint_nonnil p).
  - destruct z as [|p|p]; try discriminate.
    simpl. intros [= E]. now apply (DecimalPos.Unsigned.to_uint_nonnil p).
Qed.

(** C6: a read that succeeds on rows that hold a BigInt above 2^53-1
    returns, without throwing, a JSON text that contains the decimal numeral
    of that value: digits only, which denote the value exactly. *)
Theorem bigint_serialized_exactly
  (cfg : Config) (db : Driver) (sql : string) (rows : QueryResult) (z : Z) :
  connect db (connectionConfig cfg) = None ->
  run db sql = inr rows ->
  holds_bigint z (value_of rows) ->
  (2 ^ 53 - 1 < z)%Z ->
  exists json,
    observe (executeQuery cfg db sql)
    = (Normal (text_content json), whole_call cfg sql)
    /\ Contains (decimal z) json
    /\ Contains (dquote ++ decimal z ++ dquote) json
    /\ all_digits (decimal z) = true
    /\ denoted (decimal z) = Some z.
Proof.
  intros Hc Hr Hz Hbig.
  destruct (every_value_serializes (value_of rows) EmptyString EmptyString)
    as (o & Eo & Ho).
  destruct (Ho (holds_bigint_defined z _ Hz)) as (json & -> & Hjson).
  specialize (Hjson z Hz). rewrite QuoteJSONString_decimal in Hjson.
  exists json. rewrite observe_executeQuery, Hc, Hr.
  unfold JSON_stringify. rewrite Eo.
  split; [reflexivity|]. split; [|split; [exact Hjson|split]].
  - eapply Contains_trans; [|exact Hjson].
    apply Contains_append_r, Contains_append_l, Contains_refl.
  - apply all_digits_decimal. lia.
  - apply denoted_decimal.
Qed.

Lemma bigint_serialized_exactly_witness :
  exists json,
    observe (executeQuery (a_config false (Int 3306))
               (answering (RowData [VObject [("id", VBigInt 9007199254740993)]]))
               "SELECT id FROM t")
    = (Normal (text_content json),
       whole_call (a_config false (Int 3306)) "SELECT id FROM t")
    /\ Contains (decimal 9007199254740993) json
    /\ Contains (dquote ++ decimal 9007199254740993 ++ dquote) json
    /\ all_digits (decimal 9007199254740993) = true
    /\ denoted (decimal 9007199254740993) = Some 9007199254740993%Z.
Proof.
  apply (bigint_serialized_exactly (a_config false (Int 3306))
           (answering (RowData [VObject [("id", VBigInt 9007199254740993)]]))
           "SELECT id FROM t"
           (RowData [VObject [("id", VBigInt 9007199254740993)]])).
  - reflexivity.
  - reflexivity.
  - apply (holds_element _ _ (VObject [("id", VBigInt 9007199254740993)]));
      [left; reflexivity|].
    apply (holds_property _ _ "id" (VBigInt 9007199254740993));
      [left; reflexivity | constructor].
  - reflexivity.
Defined.

Example bigint_row_text :
  JSON_stringify (VArray [VBigInt 9007199254740993])
  = Normal (Some ("[" ++ newline ++ "  " ++ dquote ++ "9007199254740993" ++ dquote
                  ++ newline ++ "]")).
Proof. reflexivity. Qed.

Example decimal_above_safe_range : decimal (2 ^ 53 + 1) = "9007199254740993".
Proof. reflexivity. Qed.

(** * Further properties of the server *)

(** ** Every request has one of seven ends *)

Lemma tool_names_eq : tool_names = "query" :: write_tools.
Proof. reflexivity. Qed.

Lemma never_throws_on_values (v : value) :
  exists o, JSON_stringify v = Normal o /\ (v <> VUndefined -> exists s, o = Some s).
Proof.
  destruct (every_value_serializes v EmptyString EmptyString) as (o & E & H).
  exists o. split; [exact E|]. intros Hv. destruct (H Hv) as (s & -> & _). eauto.
Qed.

Lemma value_of_defined (r : QueryResult) : value_of r <> VUndefined.
Proof. destruct r; discriminate. Qed.

Lemma executeQuery_outcome (cfg : Config) (db : Driver) (args : value) (sql : string) :
  get args "sql" = VString sql ->
  accepted cfg "query" sql = true ->
  outcome cfg db "query" args (observe (executeQuery cfg db sql)).
Proof.
  intros Hsql Hacc. rewrite observe_executeQuery.
  destruct (connect db (connectionConfig cfg)) as [m|] eqn:Ec.
  - exact (no_connection cfg db "query" args sql m Hsql Hacc Ec).
  - destruct (run db sql) as [m|r] eqn:Er.
    + exact (statement_failed cfg db "query" args sql m Hsql Hacc Ec Er).
    + destruct (never_throws_on_values (value_of r)) as (o & -> & Ho).
      destruct (Ho (value_of_defined r)) as (json & ->).
      exact (succeeded cfg db "query" args sql r json Hsql Hacc Ec Er).
Qed.

Lemma executeWrite_outcome
  (cfg : Config) (db : Driver) (toolName : string) (args : value) (sql : string) :
  (toolName =? "query") = false ->
  get args "sql" = VString sql ->
  accepted cfg toolName sql = true ->
  outcome cfg db toolName args (observe (executeWrite cfg db sql toolName)).
Proof.
  intros Hq Hsql Hacc. rewrite observe_executeWrite.
  assert (Hstage : stage toolName = "MySQL " ++ toUpperCase toolName ++ " Error: ").
  { unfold stage. now rewrite Hq. }
  destruct (connect db (connectionConfig cfg)) as [m|] eqn:Ec.
  - rewrite <- !append_assoc, (append_assoc "MySQL "), <- Hstage.
    exact (no_connection cfg db toolName args sql m Hsql Hacc Ec).
  - destruct (run db sql) as [m|r] eqn:Er.
    + rewrite <- !append_assoc, (append_assoc "MySQL "), <- Hstage.
      exact (statement_failed cfg db toolName args sql m Hsql Hacc Ec Er).
    + exact (succeeded cfg db toolName args sql r _ Hsql Hacc Ec Er).
Qed.

Lemma valid_args_sql (args : value) :
  isValidQueryArgs args = true -> exists sql, get args "sql" = VString sql.
Proof.
  intros H. apply isValidQueryArgs_spec in H as (ps & sql & -> & E).
  exists sql. simpl. now rewrite E.
Qed.

Lemma invalid_args_no_sql (args : value) :
  isValidQueryArgs args = false -> ~ has_sql_string args.
Proof. intros H Hs. apply isValidQueryArgs_spec in Hs. congruence. Qed.

Lemma rejected_query (cfg : Config) (sql : string) :
  accepted cfg "query" sql = false ->
  negb (startsWith (normalized sql) "select")
  && negb (startsWith (normalized sql) "show")
  && negb (startsWith (normalized sql) "describe") = true.
Proof.
  unfold accepted. simpl.
  destruct (startsWith _ "select"), (startsWith _ "show"), (startsWith _ "describe");
    simpl; intros H; (reflexivity || discriminate H).
Qed.

Lemma rejected_write (cfg : Config) (toolName sql : string) :
  In toolName write_tools ->
  MYSQL_ALLOW_WRITE_OPS cfg = true ->
  accepted cfg toolName sql = false ->
  startsWith (normalized sql) toolName = false.
Proof.
  intros Hin Hflag. unfold accepted.
  rewrite (write_tool_not_query _ Hin), Hflag.
  apply includes_In in Hin. rewrite Hin. simpl. auto.
Qed.

Lemma handle_unknown (cfg : Config) (db : Driver) (toolName : string) (args : value) :
  ~ In toolName tool_names ->
  handle cfg db toolName args
  = (Throw (McpError MethodNotFound ("Unknown tool: " ++ toolName)), []).
Proof.
  intros Hnot. rewrite tool_names_eq in Hnot.
  unfold handle, CallTool.
  destruct (String.eqb_spec toolName "query") as [->|_].
  - exfalso. apply Hnot. left. reflexivity.
  - fold write_tools. destruct (includes write_tools toolName) eqn:E; [|reflexivity].
    exfalso. apply Hnot. right. now apply includes_In.
Qed.

Lemma handle_outcome (cfg : Config) (db : Driver) (toolName : string) (args : value) :
  outcome cfg db toolName args (handle cfg db toolName args).
Proof.
  destruct (in_dec string_dec toolName tool_names) as [Hin|Hnot];
    [|rewrite handle_unknown by assumption; now constructor].
  assert (Hcases : toolName = "query" \/ In toolName write_tools).
  { rewrite tool_names_eq in Hin. destruct Hin as [<-|H]; auto. }
  destruct Hcases as [->|Hw].
  - (* query *)
    destruct (isValidQueryArgs args) eqn:Hargs.
    + destruct (valid_args_sql args Hargs) as (sql & Hsql).
      destruct (accepted cfg "query" sql) eqn:Hacc.
      * rewrite (accepted_goes_to_gateway cfg db "query" args sql Hargs Hsql Hacc).
        now apply executeQuery_outcome.
      * unfold handle. rewrite CallTool_query, Hargs, Hsql.
        cbn [negb as_string]. rewrite (rejected_query cfg sql Hacc).
        exact (rejected cfg db "query" args sql Hin (or_introl eq_refl) Hsql Hacc).
    + unfold handle. rewrite CallTool_query, Hargs.
      exact (invalid_params cfg db "query" args Hin (or_introl eq_refl)
               (invalid_args_no_sql args Hargs)).
  - (* insert, update, delete *)
    destruct (MYSQL_ALLOW_WRITE_OPS cfg) eqn:Hflag;
      [|rewrite disabled_write by assumption; now constructor].
    pose proof (write_tool_not_query _ Hw) as Hq.
    destruct (isValidQueryArgs args) eqn:Hargs.
    + destruct (valid_args_sql args Hargs) as (sql & Hsql).
      destruct (accepted cfg toolName sql) eqn:Hacc.
      * rewrite (accepted_goes_to_gateway cfg db toolName args sql Hargs Hsql Hacc), Hq.
        now apply executeWrite_outcome.
      * unfold handle. rewrite CallTool_write by assumption.
        unfold isValidWriteArgs. fold (isValidQueryArgs args).
        rewrite Hflag, Hargs, Hsql. cbn [negb as_string].
        rewrite (rejected_write cfg toolName sql Hw Hflag Hacc). cbn [negb].
        pose proof (rejected cfg db toolName args sql Hin (or_intror Hflag) Hsql Hacc) as R.
        unfold rejection in R. rewrite Hq in R. exact R.
    + unfold handle. rewrite CallTool_write by assumption.
      unfold isValidWriteArgs. fold (isValidQueryArgs args).
      rewrite Hflag, Hargs.
      exact (invalid_params cfg db toolName args Hin (or_intror Hflag)
               (invalid_args_no_sql args Hargs)).
Qed.

Lemma get_sql_valid (args : value) (sql : string) :
  get args "sql" = VString sql -> isValidQueryArgs args = true.
Proof.
  intros H. apply isValidQueryArgs_spec.
  destruct args; try discriminate H. simpl in H.
  destruct (lookup_property "sql" properties) as [v|] eqn:E; [|discriminate H].
  simpl in H. subst v. exists properties, sql. auto.
Qed.

Lemma accepted_tool_name (cfg : Config) (toolName sql : string) :
  accepted cfg toolName sql = true -> In toolName tool_names.
Proof.
  intros H. rewrite tool_names_eq.
  destruct (toolName =? "query") eqn:Eq.
  - apply String.eqb_eq in Eq. left. congruence.
  - right. exact (proj1 (accepted_write cfg toolName sql Eq H)).
Qed.

(** X1: the dispatcher resolves exactly the names that the catalog
    advertises: a call throws the method-not-found error, with the text
    [Unknown tool: ] and the name and without any call to the driver, if and
    only if its tool name is not in the catalog. *)
Theorem catalog_names_are_resolved
  (cfg : Config) (db : Driver) (toolName : string) (args : value) :
  ((exists message t,
      handle cfg db toolName args = (Throw (McpError MethodNotFound message), t))
   <-> ~ In toolName tool_names)
  /\ (~ In toolName tool_names ->
      handle cfg db toolName args
      = (Throw (McpError MethodNotFound ("Unknown tool: " ++ toolName)), [])).
Proof.
  split; [|apply handle_unknown]. split.
  - intros (message & t & E).
    pose proof (handle_outcome cfg db toolName args) as H. rewrite E in H.
    inversion H. assumption.
  - intros H. rewrite handle_unknown by assumption. eauto.
Qed.

Lemma catalog_names_are_resolved_witness :
  handle (a_config true (Int 3306)) (answering (RowData [])) "drop"
    (sql_arguments "DROP TABLE t")
  = (Throw (McpError MethodNotFound "Unknown tool: drop"), []).
Proof.
  apply (catalog_names_are_resolved (a_config true (Int 3306))
           (answering (RowData [])) "drop" (sql_arguments "DROP TABLE t")).
  unfold tool_names. simpl. intros [E|[E|[E|[E|[]]]]]; discriminate E.
Defined.

(** X2: the handler throws nothing but the two protocol errors, and throws
    them before any call to the driver: no error of the driver and no error
    of serialization leaves it. *)
Theorem only_protocol_errors_thrown
  (cfg : Config) (db : Driver) (toolName : string) (args : value)
  (error : exn) (t : list event) :
  handle cfg db toolName args = (Throw error, t) ->
  t = []
  /\ (error = McpError InvalidParams (invalid_arguments toolName)
      \/ error = McpError MethodNotFound ("Unknown tool: " ++ toolName)).
Proof.
  intros E. pose proof (handle_outcome cfg db toolName args) as H.
  rewrite E in H. inversion H; subst; auto.
Qed.

Lemma only_protocol_errors_thrown_witness :
  @nil event = []
  /\ (McpError InvalidParams (invalid_arguments "query")
      = McpError InvalidParams (invalid_arguments "query")
      \/ McpError InvalidParams (invalid_arguments "query")
         = McpError MethodNotFound ("Unknown tool: " ++ "query")).
Proof.
  apply (only_protocol_errors_thrown (a_config true (Int 3306))
           (unreachable "connect ECONNREFUSED") "query" (VArray [])).
  reflexivity.
Defined.

(** X3: a request opens at most one connection, runs at most one statement
    on it, and releases it exactly once; the calls to the driver are none,
    or the failed attempt alone, or the attempt, the statement and the
    release. *)
Theorem one_connection_per_request
  (cfg : Config) (db : Driver) (toolName : string) (args : value) :
  let t := snd (handle cfg db toolName args) in
  (t = []
   \/ (t = [CreateConnection (connectionConfig cfg)]
       /\ connect db (connectionConfig cfg) <> None)
   \/ (exists sql, get args "sql" = VString sql
                   /\ t = whole_call cfg sql
                   /\ connect db (connectionConfig cfg) = None))
  /\ releases t = match t, connect db (connectionConfig cfg) with
                  | _ :: _, None => 1%nat
                  | _, _ => 0%nat
                  end.
Proof.
  intros t. subst t.
  pose proof (handle_outcome cfg db toolName args) as H.
  destruct (handle cfg db toolName args) as [c t]. simpl.
  inversion H; subst; try (split; [left; reflexivity | reflexivity]).
  - match goal with Hc : connect _ _ = Some _ |- _ => rewrite Hc end.
    split; [right; left; split; [reflexivity | discriminate] | reflexivity].
  - match goal with Hc : connect _ _ = None |- _ => rewrite Hc end.
    split; [right; right; eauto | reflexivity].
  - match goal with Hc : connect _ _ = None |- _ => rewrite Hc end.
    split; [right; right; eauto | reflexivity].
Qed.

Lemma accepted_and_answered
  (cfg : Config) (db : Driver) (toolName : string) (args : value)
  (sql : string) (result : QueryResult) :
  get args "sql" = VString sql ->
  accepted cfg toolName sql = true ->
  connect db (connectionConfig cfg) = None ->
  run db sql = inr result ->
  exists content,
    handle cfg db toolName args = (Normal (text_content content), whole_call cfg sql).
Proof.
  intros Hsql Hacc Hc Hr.
  rewrite (accepted_goes_to_gateway cfg db toolName args sql
             (get_sql_valid args sql Hsql) Hsql Hacc).
  destruct (toolName =? "query").
  - rewrite observe_executeQuery, Hc, Hr.
    destruct (never_throws_on_values (value_of result)) as (o & -> & Ho).
    destruct (Ho (value_of_defined result)) as (json & ->). eauto.
  - rewrite observe_executeWrite, Hc, Hr. eauto.
Qed.

(** X4: an outcome without isError is returned exactly when the arguments
    hold a statement that the classifier accepts for the tool, the
    connection is established and the driver answers the statement; the
    calls to the driver are then the attempt, that statement and the
    release. *)
Theorem success_means_executed
  (cfg : Config) (db : Driver) (toolName : string) (args : value) :
  ((exists r t, handle cfg db toolName args = (Normal r, t) /\ isError r = false)
   <->
   (exists sql result,
      get args "sql" = VString sql
      /\ accepted cfg toolName sql = true
      /\ connect db (connectionConfig cfg) = None
      /\ run db sql = inr result))
  /\ (forall r t,
        handle cfg db toolName args = (Normal r, t) -> isError r = false ->
        exists sql, get args "sql" = VString sql /\ t = whole_call cfg sql).
Proof.
  split; [split|].
  - intros (r & t & E & Hr).
    pose proof (handle_outcome cfg db toolName args) as H.
    rewrite E in H. inversion H; subst; try discriminate Hr.
    exists sql, result. auto.
  - intros (sql & result & Hsql & Hacc & Hc & Hrun).
    destruct (accepted_and_answered cfg db toolName args sql result Hsql Hacc Hc Hrun)
      as (content & E).
    exists (text_content content), (whole_call cfg sql). auto.
  - intros r t E Hr.
    pose proof (handle_outcome cfg db toolName args) as H.
    rewrite E in H. inversion H; subst; try discriminate Hr. eauto.
Qed.

Lemma success_means_executed_witness :
  exists sql,
    get (sql_arguments "UPDATE t SET a = 1") "sql" = VString sql
    /\ whole_call (a_config true (Int 3306)) "UPDATE t SET a = 1"
       = whole_call (a_config true (Int 3306)) sql.
Proof.
  apply (proj2 (success_means_executed (a_config true (Int 3306))
                  (answering (ResultSetHeader [("affectedRows", VNumber (Int 2))]))
                  "update" (sql_arguments "UPDATE t SET a = 1"))
           (text_content "UPDATE successful. Affected rows: 2.")
           (whole_call (a_config true (Int 3306)) "UPDATE t SET a = 1"));
    reflexivity.
Defined.

(** X5: the driver is called only for a statement that the classifier
    accepts for the tool of the request; so with the write-enable flag
    false, whatever reaches the database comes from the query tool and
    begins, lower-cased and trimmed, with select, show or describe. *)
Theorem driver_called_only_when_accepted
  (cfg : Config) (db : Driver) (toolName : string) (args : value) :
  snd (handle cfg db toolName args) <> [] ->
  exists sql,
    get args "sql" = VString sql
    /\ accepted cfg toolName sql = true
    /\ (MYSQL_ALLOW_WRITE_OPS cfg = false ->
        toolName = "query"
        /\ (startsWith (normalized sql) "select"
            || startsWith (normalized sql) "show"
            || startsWith (normalized sql) "describe") = true).
Proof.
  intros Ht.
  assert (Hsql : exists sql, get args "sql" = VString sql
                             /\ accepted cfg toolName sql = true).
  { pose proof (handle_outcome cfg db toolName args) as H.
    destruct (handle cfg db toolName args) as [c t]. simpl in Ht.
    inversion H; subst; try contradiction; eauto. }
  destruct Hsql as (sql & Hsql & Hacc). exists sql. repeat split; auto.
  - destruct (toolName =? "query") eqn:Eq; [now apply String.eqb_eq|].
    destruct (accepted_write cfg toolName sql Eq Hacc) as (_ & Hflag & _). congruence.
  - destruct (toolName =? "query") eqn:Eq.
    + apply String.eqb_eq in Eq. subst toolName. exact Hacc.
    + destruct (accepted_write cfg toolName sql Eq Hacc) as (_ & Hflag & _). congruence.
Qed.

Lemma driver_called_only_when_accepted_witness :
  exists sql,
    get (sql_arguments "show tables") "sql" = VString sql
    /\ accepted (a_config false (Int 3306)) "query" sql = true
    /\ (MYSQL_ALLOW_WRITE_OPS (a_config false (Int 3306)) = false ->
        "query" = "query"
        /\ (startsWith (normalized sql) "select"
            || startsWith (normalized sql) "show"
            || startsWith (normalized sql) "describe") = true).
Proof.
  apply (driver_called_only_when_accepted (a_config false (Int 3306))
           (rejecting "denied") "query" (sql_arguments "show tables")).
  discriminate.
Defined.

(** X6: a read that the driver answers always returns a text outcome: the
    serialization of the rows cannot throw and cannot be undefined,
    whatever values the rows hold, and the connection is released once. *)
Theorem read_always_serializes
  (cfg : Config) (db : Driver) (sql : string) (rows : QueryResult) :
  connect db (connectionConfig cfg) = None ->
  run db sql = inr rows ->
  exists json,
    JSON_stringify (value_of rows) = Normal (Some json)
    /\ observe (executeQuery cfg db sql)
       = (Normal (text_content json), whole_call cfg sql).
Proof.
  intros Hc Hr.
  destruct (never_throws_on_values (value_of rows)) as (o & E & Ho).
  destruct (Ho (value_of_defined rows)) as (json & ->).
  exists json. split; [exact E|].
  rewrite observe_executeQuery, Hc, Hr, E. reflexivity.
Qed.

Lemma read_always_serializes_witness :
  exists json,
    JSON_stringify
      (value_of (RowData [VObject [("n", VNumber NaN); ("u", VUndefined);
                                   ("b", VBigInt (-5))]]))
    = Normal (Some json)
    /\ observe (executeQuery (a_config false (Int 3306))
                  (answering (RowData [VObject [("n", VNumber NaN); ("u", VUndefined);
                                                ("b", VBigInt (-5))]]))
                  "select 1")
       = (Normal (text_content json), whole_call (a_config false (Int 3306)) "select 1").
Proof.
  apply (read_always_serializes (a_config false (Int 3306))
           (answering (RowData [VObject [("n", VNumber NaN); ("u", VUndefined);
                                         ("b", VBigInt (-5))]]))
           "select 1"); reflexivity.
Defined.

(** ** The classifier, further *)

Ltac each_unit c := destruct c as [[] [] [] [] [] [] [] []]; reflexivity.

Ltac each_unit_goal c :=
  destruct c as [[] [] [] [] [] [] [] []]; intros H; (reflexivity || discriminate H).

Lemma isWhiteSpace_lower (c : ascii) : isWhiteSpace (lower_unit c) = isWhiteSpace c.
Proof. each_unit c. Qed.

Lemma lower_unit_idempotent (c : ascii) : lower_unit (lower_unit c) = lower_unit c.
Proof. each_unit c. Qed.

Lemma toLowerCase_idempotent (s : string) : toLowerCase (toLowerCase s) = toLowerCase s.
Proof.
  induction s as [|c r IH]; [reflexivity|].
  cbn [toLowerCase]. now rewrite lower_unit_idempotent, IH.
Qed.

Lemma toLowerCase_append (a b : string) :
  toLowerCase (a ++ b) = toLowerCase a ++ toLowerCase b.
Proof. induction a as [|c r IH]; simpl; [reflexivity | now rewrite IH]. Qed.

Lemma all_whitespace_lower (s : string) :
  all_whitespace (toLowerCase s) = all_whitespace s.
Proof.
  induction s as [|c r IH]; [reflexivity|].
  cbn [toLowerCase all_whitespace]. now rewrite isWhiteSpace_lower, IH.
Qed.

Lemma trimStart_all_whitespace (s : string) :
  all_whitespace s = true -> trimStart s = EmptyString.
Proof.
  induction s as [|c r IH]; [reflexivity|].
  cbn [all_whitespace trimStart]. intros H. apply andb_true_iff in H as [-> Hr]. auto.
Qed.

Lemma trimStart_append (s x : string) :
  trimStart (s ++ x) = if all_whitespace s then trimStart x else trimStart s ++ x.
Proof.
  induction s as [|c r IH]; [reflexivity|].
  cbn [String.append all_whitespace trimStart].
  destruct (isWhiteSpace c); [exact IH | reflexivity].
Qed.

Lemma trimEnd_all_whitespace (s : string) :
  all_whitespace s = true -> trimEnd s = EmptyString.
Proof.
  induction s as [|c r IH]; [reflexivity|].
  cbn [all_whitespace trimEnd]. intros H. apply andb_true_iff in H as [-> Hr].
  now rewrite IH.
Qed.

Lemma trimEnd_append (s x : string) :
  all_whitespace x = true -> trimEnd (s ++ x) = trimEnd s.
Proof.
  intros Hx. induction s as [|c r IH].
  - simpl. now apply trimEnd_all_whitespace.
  - cbn [String.append trimEnd]. now rewrite IH.
Qed.

Lemma trimEnd_cons (c : ascii) (r : string) :
  isWhiteSpace c = false -> trimEnd (String c r) = String c (trimEnd r).
Proof. intros H. cbn [trimEnd]. rewrite H. now destruct (trimEnd r). Qed.

Lemma trim_padding (ws s ws' : string) :
  all_whitespace ws = true -> all_whitespace ws' = true ->
  trim (ws ++ s ++ ws') = trim s.
Proof.
  intros H H'. unfold trim.
  rewrite trimStart_append, H, trimStart_append.
  destruct (all_whitespace s) eqn:Hs.
  - now rewrite (trimStart_all_whitespace _ H'), (trimStart_all_whitespace _ Hs).
  - now apply trimEnd_append.
Qed.

Lemma normalized_padding (ws s ws' : string) :
  all_whitespace ws = true -> all_whitespace ws' = true ->
  normalized (ws ++ s ++ ws') = normalized s.
Proof.
  intros H H'. unfold normalized. rewrite !toLowerCase_append.
  apply trim_padding; now rewrite all_whitespace_lower.
Qed.

Lemma normalized_lower (s : string) : normalized (toLowerCase s) = normalized s.
Proof. unfold normalized. now rewrite toLowerCase_idempotent. Qed.

Lemma accepted_by_normalized (cfg : Config) (toolName s1 s2 : string) :
  normalized s1 = normalized s2 ->
  accepted cfg toolName s1 = accepted cfg toolName s2.
Proof. intros H. unfold accepted. now rewrite H. Qed.

Lemma reaches_driver_iff (cfg : Config) (db : Driver) (toolName sql : string) :
  snd (handle cfg db toolName (sql_arguments sql)) <> []
  <-> accepted cfg toolName sql = true.
Proof.
  split.
  - intros Ht. pose proof (handle_outcome cfg db toolName (sql_arguments sql)) as H.
    destruct (handle cfg db toolName (sql_arguments sql)) as [c t]. simpl in Ht.
    inversion H; subst; try contradiction;
      match goal with Hg : get _ _ = VString _ |- _ => injection Hg as <- end;
      assumption.
  - intros Hacc.
    rewrite (accepted_goes_to_gateway cfg db toolName (sql_arguments sql) sql
               eq_refl eq_refl Hacc).
    destruct (toolName =? "query").
    + destruct (gateway_reaches_driver_query cfg db sql) as (c & rest & ->). discriminate.
    + destruct (gateway_reaches_driver_write cfg db sql toolName) as (c & rest & ->).
      discriminate.
Qed.

(** X7: the verdict of the classifier does not depend on the case of the
    letters of the statement nor on white space around it: a statement
    reaches the driver if and only if the same statement, padded with white
    space or lower-cased, does. *)
Theorem classifier_ignores_case_and_padding
  (cfg : Config) (db : Driver) (toolName sql ws ws' : string) :
  all_whitespace ws = true ->
  all_whitespace ws' = true ->
  (snd (handle cfg db toolName (sql_arguments (ws ++ sql ++ ws'))) <> []
   <-> snd (handle cfg db toolName (sql_arguments sql)) <> [])
  /\ (snd (handle cfg db toolName (sql_arguments (toLowerCase sql))) <> []
      <-> snd (handle cfg db toolName (sql_arguments sql)) <> [])
  /\ (forall sql', toLowerCase sql' = toLowerCase sql ->
        (snd (handle cfg db toolName (sql_arguments sql')) <> []
         <-> snd (handle cfg db toolName (sql_arguments sql)) <> [])).
Proof.
  intros H H'. rewrite !reaches_driver_iff.
  rewrite (accepted_by_normalized cfg toolName _ sql (normalized_padding ws sql ws' H H')).
  rewrite (accepted_by_normalized cfg toolName _ sql (normalized_lower sql)).
  split; [tauto|]. split; [tauto|].
  intros sql' E. rewrite !reaches_driver_iff.
  rewrite (accepted_by_normalized cfg toolName sql' sql); [tauto|].
  unfold normalized. now rewrite E.
Qed.

Lemma classifier_ignores_case_and_padding_witness :
  snd (handle (a_config false (Int 3306)) (answering (RowData [])) "query"
         (sql_arguments (newline ++ "  " ++ "SeLeCt 1" ++ " " ++ newline))) <> []
  <-> snd (handle (a_config false (Int 3306)) (answering (RowData [])) "query"
             (sql_arguments "SeLeCt 1")) <> [].
Proof.
  exact (proj1 (classifier_ignores_case_and_padding (a_config false (Int 3306))
                  (answering (RowData [])) "query" "SeLeCt 1"
                  (newline ++ "  ") (" " ++ newline) eq_refl eq_refl)).
Defined.

Lemma normalized_all_whitespace (sql : string) :
  all_whitespace sql = true -> normalized sql = EmptyString.
Proof.
  intros H. unfold normalized, trim.
  rewrite trimStart_all_whitespace; [reflexivity|].
  now rewrite all_whitespace_lower.
Qed.

Lemma not_accepted_is_rejected
  (cfg : Config) (db : Driver) (toolName sql : string) :
  In toolName tool_names ->
  toolName = "query" \/ MYSQL_ALLOW_WRITE_OPS cfg = true ->
  accepted cfg toolName sql = false ->
  handle cfg db toolName (sql_arguments sql)
  = (Normal (error_content (rejection toolName)), []).
Proof.
  intros Hin Hgate Hacc.
  pose proof (handle_outcome cfg db toolName (sql_arguments sql)) as H.
  inversion H as [Hn E|Hw Hf E|_ _ Hs E|s _ _ Hg _ E|s m Hg Ha _ E
                 |s m Hg Ha _ _ E|s r c Hg Ha _ _ E].
  - contradiction.
  - destruct Hgate as [->|Hflag]; [|congruence].
    apply write_tool_not_query in Hw. discriminate Hw.
  - exfalso. apply Hs. apply isValidQueryArgs_spec. reflexivity.
  - reflexivity.
  - injection Hg as <-. congruence.
  - injection Hg as <-. congruence.
  - injection Hg as <-. congruence.
Qed.

(** X8: an empty statement, or one of white space only, is refused by every
    tool of the catalog (by the write tools once the flag lets them look at
    it), with an outcome that has isError set, and no call to the driver. *)
Theorem blank_statement_rejected
  (cfg : Config) (db : Driver) (toolName sql : string) :
  all_whitespace sql = true ->
  In toolName tool_names ->
  toolName = "query" \/ MYSQL_ALLOW_WRITE_OPS cfg = true ->
  handle cfg db toolName (sql_arguments sql)
  = (Normal (error_content (rejection toolName)), []).
Proof.
  intros Hws Hin Hgate. apply not_accepted_is_rejected; try assumption.
  unfold accepted. rewrite (normalized_all_whitespace sql Hws).
  rewrite tool_names_eq in Hin. destruct Hin as [<-|Hw]; [reflexivity|].
  rewrite (write_tool_not_query _ Hw).
  destruct (write_tool_cases _ Hw) as [->|[->| ->]];
    now rewrite andb_false_r.
Qed.

Lemma blank_statement_rejected_witness :
  handle (a_config true (Int 3306)) (answering (RowData [])) "delete"
    (sql_arguments ("  " ++ newline))
  = (Normal (error_content (rejection "delete")), []).
Proof.
  apply (blank_statement_rejected (a_config true (Int 3306)) (answering (RowData []))
           "delete" ("  " ++ newline)).
  - reflexivity.
  - unfold tool_names. simpl. auto.
  - right. reflexivity.
Defined.

Lemma prefix_cons (a : ascii) (p s : string) :
  String.prefix (String a p) s = true ->
  exists r, s = String a r /\ String.prefix p r = true.
Proof.
  destruct s as [|c r]; [discriminate|]. simpl.
  destruct (ascii_dec a c) as [->|]; [eauto | discriminate].
Qed.

Ltac clash :=
  unfold startsWith in *;
  repeat match goal with
         | H : String.prefix (String _ _) ?s = true |- _ =>
             first [ is_var s; apply prefix_cons in H as (? & -> & H)
                   | vm_compute in H; discriminate H
                   | apply prefix_cons in H as (? & [= ->] & H) ]
         end.

Lemma reads_are_not_writes (n toolName : string) :
  In toolName write_tools ->
  (startsWith n "select" || startsWith n "show" || startsWith n "describe") = true ->
  startsWith n toolName = false.
Proof.
  intros Hw H. destruct (startsWith n toolName) eqn:E; [|reflexivity]. exfalso.
  apply orb_true_iff in H as [H|H]; [apply orb_true_iff in H as [H|H]|];
    destruct (write_tool_cases _ Hw) as [->|[->| ->]]; clash.
Qed.

Lemma one_write_keyword (n t1 t2 : string) :
  In t1 write_tools -> In t2 write_tools ->
  startsWith n t1 = true -> startsWith n t2 = true -> t1 = t2.
Proof.
  intros H1 H2 E1 E2.
  destruct (write_tool_cases _ H1) as [->|[->| ->]];
    destruct (write_tool_cases _ H2) as [->|[->| ->]];
    try reflexivity; exfalso; clash.
Qed.

Lemma accepted_once (cfg : Config) (sql t1 t2 : string) :
  accepted cfg t1 sql = true ->
  accepted cfg t2 sql = true ->
  t1 = t2.
Proof.
  intros A1 A2.
  destruct (t1 =? "query") eqn:Q1; destruct (t2 =? "query") eqn:Q2.
  - apply String.eqb_eq in Q1, Q2. congruence.
  - apply String.eqb_eq in Q1. subst t1.
    destruct (accepted_write cfg t2 sql Q2 A2) as (Hw & _ & Hs).
    unfold accepted in A1. simpl in A1.
    rewrite (reads_are_not_writes _ t2 Hw A1) in Hs. discriminate Hs.
  - apply String.eqb_eq in Q2. subst t2.
    destruct (accepted_write cfg t1 sql Q1 A1) as (Hw & _ & Hs).
    unfold accepted in A2. simpl in A2.
    rewrite (reads_are_not_writes _ t1 Hw A2) in Hs. discriminate Hs.
  - destruct (accepted_write cfg t1 sql Q1 A1) as (Hw1 & _ & Hs1).
    destruct (accepted_write cfg t2 sql Q2 A2) as (Hw2 & _ & Hs2).
    exact (one_write_keyword _ t1 t2 Hw1 Hw2 Hs1 Hs2).
Qed.

(** X9: no statement is let through for two tools: if a statement reaches
    the driver when a tool is called with it, then every other tool name
    called with the same statement ends without any call to the driver; the
    query tool runs nothing that insert, update or delete would run, and no
    write tool runs what another one would. *)
Theorem at_most_one_tool_accepts
  (cfg : Config) (db db' : Driver) (sql t1 t2 : string) :
  snd (handle cfg db t1 (sql_arguments sql)) <> [] ->
  t2 <> t1 ->
  snd (handle cfg db' t2 (sql_arguments sql)) = [].
Proof.
  intros H1 Hne.
  destruct (snd (handle cfg db' t2 (sql_arguments sql))) eqn:E; [reflexivity|].
  exfalso. apply Hne.
  apply reaches_driver_iff in H1.
  assert (H2 : accepted cfg t2 sql = true).
  { apply (reaches_driver_iff cfg db'). rewrite E. discriminate. }
  exact (accepted_once cfg sql t2 t1 H2 H1).
Qed.

Lemma at_most_one_tool_accepts_witness :
  snd (handle (a_config true (Int 3306)) (answering (RowData [])) "query"
         (sql_arguments "Delete from t")) = [].
Proof.
  apply (at_most_one_tool_accepts (a_config true (Int 3306))
           (answering (ResultSetHeader [])) (answering (RowData []))
           "Delete from t" "delete" "query"); discriminate.
Defined.

Lemma startsWith_trimEnd (k x : string) :
  no_whitespace k = true -> startsWith (trimEnd (k ++ x)) k = true.
Proof.
  unfold startsWith. induction k as [|c k IH]; intros H.
  - now destruct (trimEnd _).
  - cbn [no_whitespace] in H. apply andb_true_iff in H as [Hc Hk].
    apply negb_true_iff in Hc.
    cbn [String.append]. rewrite (trimEnd_cons c _ Hc). simpl.
    destruct (ascii_dec c c); [auto | contradiction].
Qed.

Lemma trimStart_no_whitespace (k x : string) :
  no_whitespace k = true -> k <> EmptyString -> trimStart (k ++ x) = k ++ x.
Proof.
  destruct k as [|c k]; [contradiction|]. intros H _.
  cbn [no_whitespace] in H. apply andb_true_iff in H as [Hc _].
  apply negb_true_iff in Hc. cbn [String.append trimStart]. now rewrite Hc.
Qed.

Lemma keyword_prefix (k rest : string) :
  toLowerCase k = k -> no_whitespace k = true -> k <> EmptyString ->
  startsWith (normalized (k ++ rest)) k = true.
Proof.
  intros Hl Hn Hk. unfold normalized, trim.
  rewrite toLowerCase_append, Hl, trimStart_no_whitespace by assumption.
  now apply startsWith_trimEnd.
Qed.

(** X10: the classifier looks at the first word only: whatever text follows
    select, show or describe (for the query tool), or the name of the tool
    (for a write tool with the flag true), the whole statement, with what
    follows, is run on the connection as it was given. *)
Theorem only_the_prefix_is_checked
  (cfg : Config) (db : Driver) (toolName keyword rest : string) :
  (toolName = "query" /\ In keyword ["select"; "show"; "describe"])
  \/ (In toolName write_tools /\ keyword = toolName
      /\ MYSQL_ALLOW_WRITE_OPS cfg = true) ->
  connect db (connectionConfig cfg) = None ->
  snd (handle cfg db toolName (sql_arguments (keyword ++ rest)))
  = whole_call cfg (keyword ++ rest).
Proof.
  intros Hk Hc.
  assert (Hacc : accepted cfg toolName (keyword ++ rest) = true).
  { unfold accepted. destruct Hk as [[-> Hin]|(Hw & -> & Hflag)].
    - simpl in Hin. cbn [String.eqb]. change ("query" =? "query") with true. cbv iota.
      destruct Hin as [<-|[<-|[<-|[]]]];
        rewrite keyword_prefix by (reflexivity || discriminate);
        rewrite ?orb_true_r; reflexivity.
    - rewrite (write_tool_not_query _ Hw), Hflag.
      rewrite (proj2 (includes_In write_tools toolName) Hw).
      destruct (write_tool_cases _ Hw) as [->|[->| ->]];
        rewrite keyword_prefix by (reflexivity || discriminate); reflexivity. }
  rewrite (accepted_goes_to_gateway cfg db toolName (sql_arguments (keyword ++ rest))
             (keyword ++ rest) eq_refl eq_refl Hacc).
  destruct (toolName =? "query").
  - rewrite observe_executeQuery, Hc.
    destruct (run db (keyword ++ rest)) as [m|r]; [reflexivity|].
    destruct (never_throws_on_values (value_of r)) as (o & -> & _). reflexivity.
  - rewrite observe_executeWrite, Hc.
    destruct (run db (keyword ++ rest)); reflexivity.
Qed.

Lemma only_the_prefix_is_checked_witness :
  snd (handle (a_config false (Int 3306)) (rejecting "denied") "query"
         (sql_arguments ("select" ++ " 1; DROP TABLE t")))
  = whole_call (a_config false (Int 3306)) ("select" ++ " 1; DROP TABLE t").
Proof.
  apply (only_the_prefix_is_checked (a_config false (Int 3306)) (rejecting "denied")
           "query" "select" " 1; DROP TABLE t").
  - left. split; [reflexivity | simpl; auto].
  - reflexivity.
Defined.

(** ** The configuration loader, further *)

Lemma parse_digits_stop (acc : option Z) (rest : string) :
  first_is_digit rest = false -> parse_digits acc rest = acc.
Proof.
  destruct rest as [|c r]; [reflexivity|]. simpl.
  unfold digit_value, isDigit. now intros ->.
Qed.

Ltac digit_step IH :=
  cbn [NilEmpty.string_of_uint String.append parse_digits];
  match goal with
  | |- context [digit_value ?c] =>
      let v := eval vm_compute in (digit_value c) in
      change (digit_value c) with v
  end;
  cbv beta iota delta [from_option id];
  cbn [Pos.of_uint_acc Pos.of_uint].

Lemma parse_digits_acc (d : Decimal.uint) (acc : positive) (rest : string) :
  first_is_digit rest = false ->
  parse_digits (Some (Z.pos acc)) (NilEmpty.string_of_uint d ++ rest)
  = Some (Z.pos (Pos.of_uint_acc d acc)).
Proof.
  intros Hr. revert acc.
  induction d as [|d IH|d IH|d IH|d IH|d IH|d IH|d IH|d IH|d IH|d IH]; intros acc;
    [now apply parse_digits_stop | ..];
    digit_step IH; rewrite <- IH;
    match goal with
    | |- parse_digits (Some ?a) ?x = parse_digits (Some ?b) ?x =>
        replace a with b by lia; reflexivity
    end.
Qed.

Lemma parse_digits_zero (d : Decimal.uint) (rest : string) :
  first_is_digit rest = false ->
  parse_digits (Some 0%Z) (NilEmpty.string_of_uint d ++ rest)
  = Some (Z.of_N (Pos.of_uint d)).
Proof.
  intros Hr.
  induction d as [|d IH|d IH|d IH|d IH|d IH|d IH|d IH|d IH|d IH|d IH];
    [now apply parse_digits_stop | ..];
    digit_step IH;
    [exact IH | ..];
    cbn [Z.of_N]; rewrite <- (parse_digits_acc d _ rest Hr); reflexivity.
Qed.

Lemma parse_digits_numeral (d : Decimal.uint) (rest : string) :
  d <> Decimal.Nil ->
  first_is_digit rest = false ->
  parse_digits None (NilEmpty.string_of_uint d ++ rest)
  = Some (Z.of_N (Pos.of_uint d)).
Proof.
  intros Hd Hr. rewrite <- (parse_digits_zero d rest Hr).
  destruct d; [contradiction | ..]; reflexivity.
Qed.

Lemma parse_positive (p : positive) (rest : string) :
  first_is_digit rest = false ->
  parse_digits None (NilEmpty.string_of_uint (Pos.to_uint p) ++ rest)
  = Some (Z.pos p).
Proof.
  intros Hr.
  rewrite parse_digits_numeral, DecimalPos.Unsigned.of_to;
    [reflexivity | apply DecimalPos.Unsigned.to_uint_nonnil | assumption].
Qed.

Lemma NilZero_string_of_positive (p : positive) :
  NilZero.string_of_uint (Pos.to_uint p) = NilEmpty.string_of_uint (Pos.to_uint p).
Proof.
  unfold NilZero.string_of_uint.
  destruct (Pos.to_uint p) eqn:E; try reflexivity.
  now apply DecimalPos.Unsigned.to_uint_nonnil in E.
Qed.

Lemma numeral_starts (p : positive) :
  exists c r, NilEmpty.string_of_uint (Pos.to_uint p) = String c r /\ isDigit c = true.
Proof.
  destruct (Pos.to_uint p) eqn:E;
    [now apply DecimalPos.Unsigned.to_uint_nonnil in E | ..];
    simpl; eauto.
Qed.

Lemma parseInt10_numeral (z : Z) (rest : string) :
  first_is_digit rest = false ->
  parseInt10 (decimal z ++ rest) = Int z.
Proof.
  intros Hr. unfold decimal.
  destruct z as [|p|p]; cbn [Z.to_int NilZero.string_of_int].
  - unfold parseInt10. simpl. now rewrite (parse_digits_stop _ _ Hr).
  - rewrite NilZero_string_of_positive.
    pose proof (parse_positive p rest Hr) as Hp.
    destruct (numeral_starts p) as (c & r & E & Hc). rewrite E in *.
    unfold parseInt10. cbn [String.append trimStart].
    assert (Hw : isWhiteSpace c = false) by (revert Hc; each_unit_goal c).
    assert (Hm : Ascii.eqb c "-" = false) by (revert Hc; each_unit_goal c).
    assert (Hq : Ascii.eqb c "+" = false) by (revert Hc; each_unit_goal c).
    rewrite Hw, Hm, Hq. cbn [String.append] in Hp. rewrite Hp.
    reflexivity.
  - rewrite NilZero_string_of_positive.
    unfold parseInt10. cbn [String.append trimStart].
    change (isWhiteSpace "-") with false. cbv iota.
    change (Ascii.eqb "-" "-") with true. cbv iota.
    rewrite (parse_positive p rest Hr). reflexivity.
Qed.

Lemma decimal_not_empty (z : Z) (rest : string) : decimal z ++ rest <> EmptyString.
Proof.
  unfold decimal. destruct z as [|p|p]; cbn [Z.to_int NilZero.string_of_int];
    try discriminate.
  rewrite NilZero_string_of_positive.
  destruct (numeral_starts p) as (c & r & -> & _). discriminate.
Qed.

(** X11: a MYSQL_PORT that is the decimal numeral of an integer (in the
    range where Numbers are exact), followed or not by text that does not
    begin with a digit, is read as that integer: the numeral is read back
    exactly and the text after it is ignored. *)
Theorem port_numeral_read_back (env : environment) (z : Z) (rest : string) :
  (Z.abs z <= 2 ^ 53)%Z ->
  first_is_digit rest = false ->
  env !! "MYSQL_PORT" = Some (decimal z ++ rest) ->
  MYSQL_PORT env = Int z
  /\ forall cfg, load env = Serving cfg -> port (connectionConfig cfg) = Int z.
Proof.
  intros _ Hr E.
  assert (Hp : MYSQL_PORT env = Int z).
  { unfold MYSQL_PORT. rewrite E. cbn [truthy default from_option id].
    destruct (String.eqb_spec (decimal z ++ rest) EmptyString) as [H|_].
    - now apply decimal_not_empty in H.
    - cbn [negb]. now apply parseInt10_numeral. }
  split; [exact Hp|].
  intros cfg Hl. now destruct (load_Serving env cfg Hl) as [-> _].
Qed.

Lemma port_numeral_read_back_witness :
  MYSQL_PORT (an_environment [("MYSQL_PORT", "3307/tcp")]) = Int 3307
  /\ forall cfg, load (an_environment [("MYSQL_PORT", "3307/tcp")]) = Serving cfg ->
                 port (connectionConfig cfg) = Int 3307.
Proof.
  apply (port_numeral_read_back (an_environment [("MYSQL_PORT", "3307/tcp")])
           3307 "/tcp"); [lia | reflexivity | reflexivity].
Defined.

Lemma truthy_true (v : option string) :
  truthy v = true -> exists s, v = Some s /\ s <> EmptyString.
Proof.
  destruct v as [s|]; [|discriminate]. simpl. intros H.
  exists s. split; [reflexivity|]. intros ->. discriminate H.
Qed.

(** X12: when the server starts, its connection configuration holds the
    host, user, password and database of the environment as they are, each
    of them set and not empty, and the port 3306 when MYSQL_PORT is not set
    or is empty. *)
Theorem serving_configuration (env : environment) (cfg : Config) :
  load env = Serving cfg ->
  (exists h u p d,
     connectionConfig cfg
     = {| host := Some h; user := Some u; password := Some p; database := Some d;
          port := MYSQL_PORT env |}
     /\ env !! "MYSQL_HOST" = Some h /\ h <> EmptyString
     /\ env !! "MYSQL_USER" = Some u /\ u <> EmptyString
     /\ env !! "MYSQL_PASSWORD" = Some p /\ p <> EmptyString
     /\ env !! "MYSQL_DATABASE" = Some d /\ d <> EmptyString)
  /\ (env !! "MYSQL_PORT" = None \/ env !! "MYSQL_PORT" = Some EmptyString ->
      port (connectionConfig cfg) = Int 3306).
Proof.
  unfold load.
  destruct (truthy (env !! "MYSQL_HOST")) eqn:Hh; [|discriminate].
  destruct (truthy (env !! "MYSQL_USER")) eqn:Hu; [|discriminate].
  destruct (truthy (env !! "MYSQL_PASSWORD")) eqn:Hp; [|discriminate].
  destruct (truthy (env !! "MYSQL_DATABASE")) eqn:Hd; [|discriminate].
  cbn [negb orb]. intros [= <-]. cbn [connectionConfig port].
  apply truthy_true in Hh as (h & Eh & Nh), Hu as (u & Eu & Nu),
    Hp as (p & Ep & Np), Hd as (d & Ed & Nd).
  split.
  - exists h, u, p, d. rewrite Eh, Eu, Ep, Ed. repeat split; assumption.
  - unfold MYSQL_PORT. intros [-> | ->]; reflexivity.
Qed.

Lemma serving_configuration_witness :
  port (connectionConfig (a_config false (Int 3306))) = Int 3306.
Proof.
  apply (serving_configuration (an_environment [("MYSQL_PORT", EmptyString)])
           (a_config false (Int 3306)) eq_refl).
  right. reflexivity.
Defined.

(** ** Serialization, further *)

Lemma unquote_quote_unit (c : ascii) (rest : string) :
  unquote_units (quote_unit c ++ rest) = String c (unquote_units rest).
Proof. destruct c as [[] [] [] [] [] [] [] []]; reflexivity. Qed.

Lemma unquote_quote_units (s rest : string) :
  unquote_units (quote_units s ++ rest) = s ++ unquote_units rest.
Proof.
  induction s as [|c r IH]; [reflexivity|].
  cbn [quote_units]. rewrite append_assoc, unquote_quote_unit, IH. reflexivity.
Qed.

Lemma no_control_append (a b : string) :
  no_control (a ++ b) = no_control a && no_control b.
Proof.
  induction a as [|c r IH]; [reflexivity|].
  cbn [String.append no_control]. now rewrite IH, andb_assoc.
Qed.

Lemma no_control_quote_unit (c : ascii) : no_control (quote_unit c) = true.
Proof. each_unit c. Qed.

Lemma no_control_quote_units (s : string) : no_control (quote_units s) = true.
Proof.
  induction s as [|c r IH]; [reflexivity|].
  cbn [quote_units]. now rewrite no_control_append, no_control_quote_unit, IH.
Qed.

Lemma append_cancel_r (a b : string) (c : ascii) :
  a ++ String c EmptyString = b ++ String c EmptyString -> a = b.
Proof.
  revert b. induction a as [|x a IH]; intros [|y b] E; cbn [String.append] in E.
  - reflexivity.
  - injection E as _ E. destruct b; discriminate E.
  - injection E as _ E. destruct a; discriminate E.
  - injection E as -> E. f_equal. now apply IH.
Qed.

(** X13: the quoting of strings in the JSON text loses nothing and leaves
    no control character: two strings with the same quoted text are the
    same string, reading the escapes back gives the string, and the quoted
    text has no character below U+0020. *)
Theorem quoting_is_faithful (s : string) :
  (forall s', JSON_stringify (VString s) = JSON_stringify (VString s') -> s = s')
  /\ JSON_stringify (VString s) = Normal (Some (dquote ++ quote_units s ++ dquote))
  /\ unquote_units (quote_units s) = s
  /\ no_control (QuoteJSONString s) = true.
Proof.
  assert (Hback : forall x, unquote_units (quote_units x) = x).
  { intros x. rewrite <- (append_empty_r (quote_units x)), unquote_quote_units.
    apply append_empty_r. }
  split; [|split; [reflexivity|split]].
  - intros s' E. injection E as E.
    apply (f_equal unquote_units) in E.
    rewrite !unquote_quote_units in E.
    exact (append_cancel_r s s' "034" E).
  - apply Hback.
  - unfold QuoteJSONString.
    rewrite !no_control_append, no_control_quote_units. reflexivity.
Qed.

(** ** The catalog and the dispatcher *)

Lemma prefix_append (p s : string) :
  String.prefix p s = true <-> exists r, s = p ++ r.
Proof.
  revert s. induction p as [|a p IH]; intros s.
  - split; [intros _; exists s; reflexivity | intros _; now destruct s].
  - split.
    + intros H. apply prefix_cons in H as (r & -> & H).
      apply IH in H as (r' & ->). exists r'. reflexivity.
    + intros (r & ->). simpl. destruct (ascii_dec a a); [|contradiction].
      apply IH. eauto.
Qed.

Lemma occurs_in_spec (sub s : string) : occurs_in sub s = true <-> Contains sub s.
Proof.
  split.
  - induction s as [|c r IH]; cbn [occurs_in]; rewrite orb_true_iff.
    + intros [H|H]; [|discriminate H].
      apply prefix_append in H as (x & ->). exists EmptyString, x. reflexivity.
    + intros [H|H].
      * apply prefix_append in H as (x & ->). exists EmptyString, x. reflexivity.
      * destruct (IH H) as (x & y & ->). exists (String c x), y. reflexivity.
  - intros (x & y & ->). induction x as [|c x IH].
    + assert (H : String.prefix sub (sub ++ y) = true) by (apply prefix_append; eauto).
      simpl. destruct (sub ++ y); cbn [occurs_in]; now rewrite H.
    + cbn [String.append occurs_in]. rewrite IH. apply orb_true_r.
Qed.

(** X14: the descriptions of the catalog tell the write gate as the
    dispatcher applies it: with the write-enable flag false, a tool of the
    catalog answers every call with the write-disabled outcome if and only
    if its description says that it requires MYSQL_ALLOW_WRITE_OPS=true. *)
Theorem descriptions_tell_the_gate (cfg : Config) (t : value) :
  In t tools ->
  MYSQL_ALLOW_WRITE_OPS cfg = false ->
  (Contains "Requires MYSQL_ALLOW_WRITE_OPS=true" (as_string (get t "description"))
   <->
   forall (db : Driver) (args : value),
     handle cfg db (as_string (get t "name")) args
     = (Normal (error_content (writes_disabled (as_string (get t "name")))), [])).
Proof.
  intros Hin Hflag. rewrite <- occurs_in_spec.
  unfold tools in Hin. simpl in Hin.
  destruct Hin as [<-|[<-|[<-|[<-|[]]]]]; cbn [get lookup_property String.eqb Ascii.eqb Bool.eqb default from_option id as_string].
  - split.
    + intros H. vm_compute in H. discriminate H.
    + intros H. specialize (H (answering (RowData [])) VNull).
      unfold handle in H. rewrite CallTool_query in H. discriminate H.
  - split; [|reflexivity]. intros _ db args. apply disabled_write; simpl; auto.
  - split; [|reflexivity]. intros _ db args. apply disabled_write; simpl; auto.
  - split; [|reflexivity]. intros _ db args. apply disabled_write; simpl; auto.
Qed.

Lemma descriptions_tell_the_gate_witness :
  Contains "Requires MYSQL_ALLOW_WRITE_OPS=true"
    "Execute an UPDATE SQL statement. Requires MYSQL_ALLOW_WRITE_OPS=true."
  <->
  forall (db : Driver) (args : value),
    handle (a_config false (Int 3306)) db "update" args
    = (Normal (error_content (writes_disabled "update")), []).
Proof.
  apply (descriptions_tell_the_gate (a_config false (Int 3306)) (nth 2 tools VNull)).
  - unfold tools. simpl. auto.
  - reflexivity.
Defined.

Lemma conforms_sql_schema (t args : value) :
  In t tools -> conforms (get t "inputSchema") args = isValidQueryArgs args.
Proof.
  intros Hin. unfold tools in Hin. simpl in Hin.
  destruct Hin as [<-|[<-|[<-|[<-|[]]]]];
    (destruct args as [ | |b|n|s|z|l|ps]; try reflexivity;
     unfold conforms, type_conforms, isValidQueryArgs; simpl;
     destruct (lookup_property "sql" ps) as [[ | |b|n|s|z|l|ps']|]; reflexivity).
Qed.

(** X15: the input schema that the catalog advertises for a tool and the
    guard of the dispatcher agree: once past the write gate, a call of a
    tool of the catalog throws the invalid-params error if and only if its
    arguments do not conform to the schema of that tool. *)
Theorem schema_is_what_the_guard_checks
  (cfg : Config) (db : Driver) (t args : value) :
  In t tools ->
  as_string (get t "name") = "query" \/ MYSQL_ALLOW_WRITE_OPS cfg = true ->
  (conforms (get t "inputSchema") args = false
   <->
   handle cfg db (as_string (get t "name")) args
   = (Throw (McpError InvalidParams (invalid_arguments (as_string (get t "name")))), [])).
Proof.
  intros Hin Hgate. rewrite (conforms_sql_schema t args Hin).
  assert (Hname : In (as_string (get t "name")) tool_names).
  { unfold tool_names. apply in_map_iff. exists t. auto. }
  pose proof (handle_outcome cfg db (as_string (get t "name")) args) as H.
  split.
  - intros Hargs. apply invalid_args_no_sql in Hargs.
    inversion H as [Hn E|Hw Hf E|_ _ Hs E|s _ _ Hg _ E|s m Hg Ha _ E
                   |s m Hg Ha _ _ E|s r c Hg Ha _ _ E];
      try reflexivity;
      try (exfalso; apply Hargs, isValidQueryArgs_spec, (get_sql_valid args s Hg)).
    + contradiction.
    + destruct Hgate as [Hq|Hflag]; [|congruence].
      apply write_tool_not_query in Hw. rewrite Hq in Hw. discriminate Hw.
  - intros E. rewrite E in H. inversion H as [| |_ _ Hs| | | |].
    destruct (isValidQueryArgs args) eqn:Hv; [|reflexivity].
    exfalso. apply Hs, isValidQueryArgs_spec, Hv.
Qed.

Lemma schema_is_what_the_guard_checks_witness :
  conforms (get (nth 0 tools VNull) "inputSchema") (VObject [("sql", VNull)]) = false
  <->
  handle (a_config false (Int 3306)) (answering (RowData [])) "query"
    (VObject [("sql", VNull)])
  = (Throw (McpError InvalidParams (invalid_arguments "query")), []).
Proof.
  apply (schema_is_what_the_guard_checks (a_config false (Int 3306))
           (answering (RowData [])) (nth 0 tools VNull) (VObject [("sql", VNull)])).
  - unfold tools. simpl. auto.
  - left. reflexivity.
Defined.

(** ** One request after another *)

Ltac run_from_state :=
  cbv beta iota zeta delta
    [run_from executeQuery executeWrite try_catch bind createConnection execute
     end_ release_and_report assign_connection read_connection emit lift
     throw ret trace connection].

Lemma framed_ret {A : Type} (a : A) : framed (ret a).
Proof. intros st. unfold run_from, observe, ret. simpl. now rewrite app_nil_r. Qed.

Lemma framed_throw {A : Type} (e : exn) : framed (@throw A e).
Proof. intros st. unfold run_from, observe, throw. simpl. now rewrite app_nil_r. Qed.

Lemma framed_executeQuery (cfg : Config) (db : Driver) (sql : string) :
  framed (executeQuery cfg db sql).
Proof.
  intros st. rewrite observe_executeQuery. run_from_state. unfold whole_call.
  destruct (connect db (connectionConfig cfg)); [reflexivity|].
  destruct (run db sql); [now rewrite <- !app_assoc|].
  destruct (JSON_stringify (value_of q)); now rewrite <- !app_assoc.
Qed.

Lemma executeWrite_from
  (cfg : Config) (db : Driver) (sql operation : string) (st : state) :
  run_from st (executeWrite cfg db sql operation) =
    match connect db (connectionConfig cfg) with
    | Some message =>
        (Normal (error_content ("MySQL " ++ toUpperCase operation ++ " Error: " ++ message)),
         (trace st ++ [CreateConnection (connectionConfig cfg)])%list)
    | None =>
        match run db sql with
        | inl message =>
            (Normal (error_content ("MySQL " ++ toUpperCase operation ++ " Error: " ++ message)),
             (trace st ++ whole_call cfg sql)%list)
        | inr result =>
            (Normal (text_content (confirmation operation (value_of result))),
             (trace st ++ whole_call cfg sql)%list)
        end
    end.
Proof.
  run_from_state. unfold whole_call.
  destruct (connect db (connectionConfig cfg)).
  { now rewrite !append_assoc. }
  destruct (run db sql).
  { now rewrite !append_assoc, <- !app_assoc. }
  unfold confirmation.
  rewrite <- (append_assoc (toUpperCase operation) " successful.").
  rewrite <- build_message. cbv zeta.
  rewrite !append_assoc, <- !app_assoc. reflexivity.
Qed.

Lemma framed_executeWrite (cfg : Config) (db : Driver) (sql operation : string) :
  framed (executeWrite cfg db sql operation).
Proof.
  intros st. rewrite executeWrite_from, observe_executeWrite.
  destruct (connect db (connectionConfig cfg)); [reflexivity|].
  destruct (run db sql); reflexivity.
Qed.

Lemma framed_CallTool (cfg : Config) (db : Driver) (toolName : string) (args : value) :
  framed (CallTool cfg db toolName args).
Proof.
  unfold CallTool.
  repeat match goal with
         | |- framed (if ?b then _ else _) => destruct b
         | |- framed (let _ := _ in _) => cbv zeta
         end;
    first [ apply framed_ret | apply framed_throw
          | apply framed_executeQuery | apply framed_executeWrite ].
Qed.

(** X16: requests do not share anything: when two requests are handled one
    after the other, each completes as it does alone, and the calls to the
    driver are those of the first followed by those of the second, so that
    each request opens and releases its own connection. *)
Theorem requests_are_independent
  (cfg : Config) (db db' : Driver) (t1 t2 : string) (a1 a2 : value) :
  observe (one_after_another (CallTool cfg db t1 a1) (CallTool cfg db' t2 a2))
  = (Normal (fst (handle cfg db t1 a1), fst (handle cfg db' t2 a2)),
     (snd (handle cfg db t1 a1) ++ snd (handle cfg db' t2 a2))%list).
Proof.
  unfold observe at 1, one_after_another.
  pose proof (framed_CallTool cfg db t1 a1 initial) as H1.
  unfold run_from in H1.
  destruct (CallTool cfg db t1 a1 initial) as [c1 st1].
  pose proof (framed_CallTool cfg db' t2 a2 st1) as H2.
  unfold run_from in H2.
  destruct (CallTool cfg db' t2 a2 st1) as [c2 st2].
  injection H1 as -> H1. injection H2 as -> ->.
  fold (handle cfg db t1 a1) in *. fold (handle cfg db' t2 a2).
  rewrite H1. reflexivity.
Qed.

(** X17: when the driver answers a write with rows and not with a result
    header, the confirmation has neither clause: it is the operation in
    upper case followed by [ successful.], and the connection is used and
    released as for any write. *)
Theorem write_answered_with_rows
  (cfg : Config) (db : Driver) (toolName sql : string) (rows : list value) :
  accepted cfg toolName sql = true ->
  toolName <> "query" ->
  connect db (connectionConfig cfg) = None ->
  run db sql = inr (RowData rows) ->
  handle cfg db toolName (sql_arguments sql)
  = (Normal (text_content (toUpperCase toolName ++ " successful.")), whole_call cfg sql).
Proof.
  intros Hacc Hq Hc Hr.
  rewrite (accepted_goes_to_gateway cfg db toolName (sql_arguments sql) sql
             eq_refl eq_refl Hacc).
  destruct (String.eqb_spec toolName "query") as [E|_]; [contradiction|].
  rewrite observe_executeWrite, Hc, Hr.
  unfold confirmation. cbn [value_of has_property andb].
  now rewrite !append_empty_r.
Qed.

Lemma write_answered_with_rows_witness :
  handle (a_config true (Int 3306)) (answering (RowData [VObject [("id", VNumber (Int 7))]]))
    "insert" (sql_arguments "INSERT INTO t VALUES (1) RETURNING id")
  = (Normal (text_content ("INSERT" ++ " successful.")),
     whole_call (a_config true (Int 3306)) "INSERT INTO t VALUES (1) RETURNING id").
Proof.
  apply (write_answered_with_rows (a_config true (Int 3306))
           (answering (RowData [VObject [("id", VNumber (Int 7))]]))
           "insert" "INSERT INTO t VALUES (1) RETURNING id"
           [VObject [("id", VNumber (Int 7))]]);
    (reflexivity || discriminate).
Defined.
